(** * RedRec: the operation registry and the interactive selector

    A shallow embedding of [redrec.py].  Python text is a sequence of code
    points; the registry file, the terminal and the environment the script
    talks to are fields of one explicit [world], threaded through a small
    state-and-exception monad.

    What the model takes from the environment:
    - one process runs at a time, so the locks around the registry file are
      not seen;
    - the file system does its work: the directory can be made and the file
      opened, read and appended to;
    - the registry file is read and written as UTF-8, the encoding of the
      locale: the text of the file is the code points decoded from it, and
      what is written must go through the strict encoder;
    - the terminal hands over the keys typed, one per read; a read with no
      key left waits ([Blocked]);
    - whether the recorder is installed, what time it is and how the
      recorder ends are given by the world. *)

From Stdlib Require Import String Ascii DecimalString.
From Stdlib Require Import ZArith NArith Lia Bool List.
Import ListNotations.

Local Open Scope Z_scope.

(** ** Python text *)

Module Py.

(** A Python [str] is a sequence of Unicode code points. *)
Definition char := N.
Definition str := list char.

(** A literal: the code points of an ASCII string. *)
Definition lit (s : string) : str := map N_of_ascii (list_ascii_of_string s).

Definition LF : char := 10%N.
Definition CR : char := 13%N.
Definition ESC : char := 27%N.
Definition ETX : char := 3%N.

Fixpoint str_eqb (a b : str) : bool :=
  match a, b with
  | [], [] => true
  | x :: a', y :: b' => N.eqb x y && str_eqb a' b'
  | _, _ => false
  end.

(** [x in xs] on a list of strings. *)
Definition mem (x : str) (xs : list str) : bool := existsb (str_eqb x) xs.

(** The characters [str.splitlines] takes as line boundaries. *)
Definition is_linebreak (c : char) : bool :=
  match c with
  | 10%N | 11%N | 12%N | 13%N | 28%N | 29%N | 30%N | 133%N | 8232%N | 8233%N => true
  | _ => false
  end.

(** [str.splitlines()] without [keepends]: scan to the next boundary, emit
    the line before it, read CR LF as one boundary; a last line with no
    boundary after it is emitted only when it is not empty.  [line] is the
    current line, reversed. *)
Fixpoint splitlines_from (line : str) (s : str) : list str :=
  match s with
  | [] => match line with [] => [] | _ => [rev line] end
  | c :: s' =>
      if is_linebreak c then
        rev line ::
          (if N.eqb c CR then
             match s' with
             | d :: s'' => if N.eqb d LF then splitlines_from [] s''
                           else splitlines_from [] s'
             | [] => splitlines_from [] s'
             end
           else splitlines_from [] s')
      else splitlines_from (c :: line) s'
  end.

Definition splitlines (s : str) : list str := splitlines_from [] s.

(** Reading a file opened in text mode with the default [newline=None]:
    CR LF and a lone CR both arrive as LF. *)
Fixpoint universal_newlines (s : str) : str :=
  match s with
  | [] => []
  | c :: s' =>
      if N.eqb c CR then
        LF :: match s' with
              | d :: s'' => if N.eqb d LF then universal_newlines s''
                            else universal_newlines s'
              | [] => universal_newlines s'
              end
      else c :: universal_newlines s'
  end.

(** [xs[i]]: a negative index counts from the end; out of range is an
    [IndexError], here [None]. *)
Definition index {A} (xs : list A) (i : Z) : option A :=
  let n := Z.of_nat (length xs) in
  if (0 <=? i) && (i <? n) then nth_error xs (Z.to_nat i)
  else if (- n <=? i) && (i <? 0) then nth_error xs (Z.to_nat (n + i))
  else None.

(** [a % b] on integers: the sign follows the divisor; [b = 0] is a
    [ZeroDivisionError], here [None]. *)
Definition modulo (a b : Z) : option Z :=
  if b =? 0 then None else Some (a mod b).

(** [str(n)] for an integer. *)
Definition str_of_int (n : Z) : str := lit (NilZero.string_of_int (Z.to_int n)).

(** What the strict UTF-8 encoder takes: a Unicode scalar value.  A lone
    surrogate, which is what [sys.argv] holds for a byte that is not UTF-8,
    makes [f.write] raise [UnicodeEncodeError]. *)
Definition encodable_char (c : char) : bool :=
  (c <? 55296)%N || ((57343 <? c)%N && (c <? 1114112)%N).

Definition encodable (s : str) : bool := forallb encodable_char s.

(** [os.path.join(a, b)] of [posixpath]. *)
Definition path_join (a b : str) : str :=
  match b with
  | 47%N :: _ => b
  | _ => match rev a with
         | [] => b
         | 47%N :: _ => a ++ b
         | _ => a ++ 47%N :: b
         end
  end.

End Py.

Import Py.

(** ** The world the script runs in *)

(** [~/workspace] and the registry file [~/workspace/operations] in it: the
    directory may be missing, or present without the file, or the file holds
    some text. *)
Inductive registry_store :=
| NoWorkspace
| NoFile
| File (content : str).

(** The terminal attributes that decide how keys are delivered. *)
Record termios := Termios {
  icrnl : bool;
  opost : bool;
  echo : bool;
  icanon : bool;
  isig : bool
}.

Definition raw_mode : termios := Termios false false false false false.

Inductive tty_call :=
| SetRaw
| TcSetAttr (t : termios).

(** What [subprocess.run] of the recorder does: it ends with a return code,
    or the call itself raises. *)
Inductive recorder_outcome :=
| RecExit (returncode : Z)
| RecFail (text : str).

Record world := World {
  store : registry_store;
  tty : termios;                   (* current attributes of the terminal *)
  tty_calls : list tty_call;       (* every change of them, oldest first *)
  stdin : list char;               (* the keys the reads will deliver *)
  stdout : str;
  asciinema : bool;                (* shutil.which("asciinema") finds it *)
  now : str;                       (* datetime.now().strftime("%Y%m%d_%H%M%S") *)
  recorder : recorder_outcome;
  made_dirs : list str;            (* os.makedirs under /home/user/workspace *)
  recordings : list (str * str)    (* command and file of each recorder run *)
}.

Definition set_store (s : registry_store) (w : world) : world :=
  World s (tty w) (tty_calls w) (stdin w) (stdout w) (asciinema w) (now w)
        (recorder w) (made_dirs w) (recordings w).

Definition set_tty (t : termios) (c : tty_call) (w : world) : world :=
  World (store w) t (tty_calls w ++ [c]) (stdin w) (stdout w) (asciinema w)
        (now w) (recorder w) (made_dirs w) (recordings w).

Definition set_stdin (k : list char) (w : world) : world :=
  World (store w) (tty w) (tty_calls w) k (stdout w) (asciinema w) (now w)
        (recorder w) (made_dirs w) (recordings w).

Definition set_stdout (s : str) (w : world) : world :=
  World (store w) (tty w) (tty_calls w) (stdin w) s (asciinema w) (now w)
        (recorder w) (made_dirs w) (recordings w).

Definition add_dir (d : str) (w : world) : world :=
  World (store w) (tty w) (tty_calls w) (stdin w) (stdout w) (asciinema w)
        (now w) (recorder w) (made_dirs w ++ [d]) (recordings w).

Definition add_recording (r : str * str) (w : world) : world :=
  World (store w) (tty w) (tty_calls w) (stdin w) (stdout w) (asciinema w)
        (now w) (recorder w) (made_dirs w) (recordings w ++ [r]).

(** ** Results and the monad *)

Inductive exn :=
| IndexError
| ZeroDivisionError
| FileNotFoundError
| UnicodeEncodeError.

(** The argument of [sys.exit]: an integer status, or a message, which is
    printed to stderr and gives status 1. *)
Inductive exit_arg :=
| ExitInt (n : Z)
| ExitStr (s : str).

Definition exit_status (a : exit_arg) : Z :=
  match a with
  | ExitInt n => Z.land n 255
  | ExitStr _ => 1
  end.

(** How a piece of the script ends.  [Blocked]: [sys.stdin.read(1)] waits for
    a key and none is left.  [OutOfFuel] belongs to the model only, see
    [select_loop]. *)
Inductive outcome (A : Type) :=
| Ret (a : A)
| SysExit (arg : exit_arg)
| Raise (e : exn)
| Blocked
| OutOfFuel.

Arguments Ret {A} a.
Arguments SysExit {A} arg.
Arguments Raise {A} e.
Arguments Blocked {A}.
Arguments OutOfFuel {A}.

Definition M (A : Type) : Type := world -> outcome A * world.

Definition ret {A} (a : A) : M A := fun w => (Ret a, w).

Definition bind {A B} (m : M A) (k : A -> M B) : M B :=
  fun w =>
    match m w with
    | (Ret a, w') => k a w'
    | (SysExit arg, w') => (SysExit arg, w')
    | (Raise e, w') => (Raise e, w')
    | (Blocked, w') => (Blocked, w')
    | (OutOfFuel, w') => (OutOfFuel, w')
    end.

Notation "x <- c1 ;; c2" := (bind c1 (fun x => c2))
  (at level 61, c1 at next level, right associativity).
Notation "c1 ;; c2" := (bind c1 (fun _ => c2))
  (at level 61, right associativity).

Definition get : M world := fun w => (Ret w, w).
Definition modify (f : world -> world) : M unit := fun w => (Ret tt, f w).
Definition sys_exit {A} (arg : exit_arg) : M A := fun w => (SysExit arg, w).
Definition raise {A} (e : exn) : M A := fun w => (Raise e, w).

Definition of_option {A} (e : exn) (o : option A) : M A :=
  match o with
  | Some a => ret a
  | None => raise e
  end.

(** [try: body finally: cleanup].  The cleanup runs however the body ends,
    but not while the body is still waiting inside a read. *)
Definition finally {A} (body : M A) (cleanup : M unit) : M A :=
  fun w =>
    match body w with
    | (Blocked, w') => (Blocked, w')
    | (OutOfFuel, w') => (OutOfFuel, w')
    | (r, w') =>
        match cleanup w' with
        | (Ret _, w'') => (r, w'')
        | (SysExit arg, w'') => (SysExit arg, w'')
        | (Raise e, w'') => (Raise e, w'')
        | (Blocked, w'') => (Blocked, w'')
        | (OutOfFuel, w'') => (OutOfFuel, w'')
        end
    end.

Definition eval {A} (m : M A) (w : world) : outcome A := fst (m w).
Definition exec {A} (m : M A) (w : world) : world := snd (m w).

(** [sys.stdout.write(s)] and [print(s)]. *)
Definition write (s : str) : M unit := modify (fun w => set_stdout (stdout w ++ s) w).
Definition print (s : str) : M unit := write (s ++ [LF]).

(** ** The operation registry *)

(** [os.makedirs(workspace_dir, exist_ok=True)]; the path returned is the
    fixed [~/workspace/operations], the one file of [store]. *)
Definition get_operations_file : M unit :=
  modify (fun w => match store w with
                   | NoWorkspace => set_store NoFile w
                   | _ => w
                   end).

(** The locks taken around the read and the write order concurrent
    processes; one process alone sees nothing of them. *)
Definition read_operations : M (list str) :=
  get_operations_file ;;
  w <- get ;;
  match store w with
  | File content => ret (splitlines (universal_newlines content))
  | _ => ret []
  end.

(** [open(operations_file, "a")]: the file is created, empty, when it is
    missing. *)
Definition open_append : M unit :=
  w <- get ;;
  match store w with
  | NoWorkspace => raise FileNotFoundError
  | NoFile => modify (set_store (File []))
  | File _ => ret tt
  end.

(** [f.write(text)] on the file opened for appending: the text is encoded
    first, which fails on what the encoder refuses; LF is written as it
    is. *)
Definition file_write (text : str) : M unit :=
  if encodable text then
    modify (fun w => match store w with
                     | File content => set_store (File (content ++ text)) w
                     | _ => w
                     end)
  else raise UnicodeEncodeError.

(** [with open(operations_file, "a") as f: ... f.write(text)]. *)
Definition append_operations_file (text : str) : M unit :=
  open_append ;;
  file_write text.

Definition save_operation (operation_name : str) : M unit :=
  get_operations_file ;;
  operations <- read_operations ;;
  if negb (mem operation_name operations) then
    append_operations_file (operation_name ++ [LF])
  else ret tt.

(** ** The terminal *)

Definition tcgetattr : M termios := w <- get ;; ret (tty w).
Definition tcsetattr (t : termios) : M unit := modify (set_tty t (TcSetAttr t)).
Definition setraw : M unit := modify (set_tty raw_mode SetRaw).

(** [sys.stdin.read(1)] on a terminal: the next key, once there is one. *)
Definition stdin_read1 : M str :=
  fun w =>
    match stdin w with
    | [] => (Blocked, w)
    | c :: rest => (Ret [c], set_stdin rest w)
    end.

Definition getch : M str :=
  old_settings <- tcgetattr ;;
  finally (setraw ;; stdin_read1) (tcsetattr old_settings).

Definition cursor_up : str := ESC :: lit "[F".
Definition clear_line : str := ESC :: lit "[K".

Fixpoint repeat_m (n : nat) (m : M unit) : M unit :=
  match n with
  | O => ret tt
  | S n' => m ;; repeat_m n' m
  end.

(** [for _ in range(num_lines)]: nothing for a negative count. *)
Definition clear_previous_lines (num_lines : Z) : M unit :=
  repeat_m (Z.to_nat num_lines) (write cursor_up ;; write clear_line).

(** ** The interactive selector *)

(** [for i, operation in enumerate(operations)], from index [i]. *)
Fixpoint draw_from (i : Z) (operations : list str) (selected_index : Z) : M unit :=
  match operations with
  | [] => ret tt
  | operation :: rest =>
      (if i =? selected_index then print (lit "> " ++ operation)
       else print (lit "  " ++ operation)) ;;
      draw_from (i + 1) rest selected_index
  end.

Definition key_up : str := ESC :: lit "[A".
Definition key_down : str := ESC :: lit "[B".

(** How one turn of [while True] ends: the loop goes on with a cursor, or
    the function returns. *)
Inductive control :=
| Continue (selected_index : Z)
| Return (operation : str).

(** The erase and redraw at the head of the loop body. *)
Definition render (operations : list str) (selected_index : Z) : M unit :=
  clear_previous_lines (Z.of_nat (length operations)) ;;
  draw_from 0 operations selected_index.

(** The rest of the body: read a key and act on it. *)
Definition handle_key (operations : list str) (selected_index : Z) : M control :=
  let num_operations := Z.of_nat (length operations) in
  key <- getch ;;
  if str_eqb key [ESC] then
    k1 <- getch ;;
    k2 <- getch ;;
    let key := key ++ (k1 ++ k2) in
    if str_eqb key key_up then
      i <- of_option ZeroDivisionError (modulo (selected_index - 1) num_operations) ;;
      ret (Continue i)
    else if str_eqb key key_down then
      i <- of_option ZeroDivisionError (modulo (selected_index + 1) num_operations) ;;
      ret (Continue i)
    else ret (Continue selected_index)
  else if mem key [[LF]; [CR]] then
    clear_previous_lines (num_operations + 1) ;;
    operation <- of_option IndexError (index operations selected_index) ;;
    ret (Return operation)
  else if str_eqb key [ETX] then sys_exit (ExitInt 0)
  else ret (Continue selected_index).

Definition loop_body (operations : list str) (selected_index : Z) : M control :=
  render operations selected_index ;;
  handle_key operations selected_index.

(** [while True].  Every turn that goes on has read a key, so one turn more
    than there are keys is enough: see [select_operation_fuel]. *)
Fixpoint select_loop (fuel : nat) (operations : list str) (selected_index : Z) : M str :=
  match fuel with
  | O => fun w => (OutOfFuel, w)
  | S fuel' =>
      c <- loop_body operations selected_index ;;
      match c with
      | Continue i => select_loop fuel' operations i
      | Return operation => ret operation
      end
  end.

Definition select_operation (operations : list str) : M str :=
  print (lit "Select an operation:") ;;
  w <- get ;;
  select_loop (S (length (stdin w))) operations 0.

(** ** Recording *)

Definition base_dir : str := lit "/home/user/workspace".

(** [read_operations()[-1] if read_operations() else "currentoperation"]:
    the condition is evaluated first, then the chosen branch. *)
Definition default_operation_name : M str :=
  cond <- read_operations ;;
  match cond with
  | [] => ret (lit "currentoperation")
  | _ :: _ =>
      operations <- read_operations ;;
      of_option IndexError (index operations (-1))
  end.

(** [os.makedirs(target_dir, exist_ok=True)] is taken to make the directory
    and to leave the registry file alone, which it does unless the path is
    the registry file's own or one the file system refuses; [plain_name]
    says so of a name, where a statement is about every name.
    [subprocess.run] is the one call of the [try] block that can raise an
    [Exception]; [sys.exit] raises [SystemExit], which [except Exception]
    lets through. *)
Definition run_with_asciinema (command : str) (operation_name : option str) : M unit :=
  w <- get ;;
  (if asciinema w then ret tt
   else sys_exit (ExitStr (lit "Error: asciinema is not installed."))) ;;
  operation_name <- match operation_name with
                    | None => default_operation_name
                    | Some name => ret name
                    end ;;
  let target_dir := path_join base_dir operation_name in
  modify (add_dir target_dir) ;;
  w <- get ;;
  let timestamp := now w in
  let recording_file :=
    path_join target_dir (lit "session_" ++ timestamp ++ lit ".cast") in
  save_operation operation_name ;;
  modify (add_recording (command, recording_file)) ;;
  match recorder w with
  | RecExit returncode =>
      if negb (returncode =? 0) then
        sys_exit (ExitStr (lit "Error: Command failed with return code "
                           ++ str_of_int returncode))
      else print (lit "Recording saved to " ++ recording_file)
  | RecFail text => sys_exit (ExitStr (lit "An error occurred: " ++ text))
  end.

Definition dq : str := [34%N].

Definition usage_lines : list str :=
  [ [];
    lit "    Usage: RedRec <command> [options]";
    [];
    lit "    <command>        : The command to execute and record with asciinema.";
    [];
    lit "    Options:";
    lit "    [operation_name] : (Optional) The name of the operation. If not provided,";
    lit "                       the script will use the last operation or default to "
      ++ dq ++ lit "currentoperation" ++ dq ++ lit ".";
    lit "    -s, --select     : Select a previous operation from a list.";
    [];
    lit "    Examples:";
    lit "    - To run with the last used or default operation:";
    lit "      ./RedRec bash";
    [];
    lit "    - To create and use a new operation:";
    lit "      ./RedRec bash new_operation";
    [];
    lit "    - To select a specific previous operation from a menu:";
    lit "      ./RedRec bash -s" ].

Definition usage_text : str :=
  concat (map (fun l => l ++ [LF]) usage_lines) ++ lit "    ".

Definition print_usage : M unit := print usage_text.

(** [sys.argv[i]] for an [i] known to be in range. *)
Definition argv_at (argv : list str) (i : nat) : str := nth i argv [].

Definition main (argv : list str) : M unit :=
  (if (length argv <? 2)%nat
      || mem (argv_at argv 1) [lit "-h"; lit "--help"]
   then print_usage ;; sys_exit (ExitInt 1)
   else ret tt) ;;
  let command := argv_at argv 1 in
  operation_name <-
    (if (2 <? length argv)%nat then
       if mem (argv_at argv 2) [lit "-s"; lit "--select"] then
         operations <- read_operations ;;
         match operations with
         | [] => sys_exit (ExitStr (lit "No previous operations found."))
         | _ :: _ =>
             operation_name <- select_operation operations ;;
             ret (Some operation_name)
         end
       else ret (Some (argv_at argv 2))
     else ret None) ;;
  run_with_asciinema command operation_name.

(** * The vocabulary of the statements *)

(** A name that [splitlines] reads back as one line. *)
Definition no_linebreak (x : str) : bool :=
  forallb (fun c => negb (is_linebreak c)) x.

(** A name the registry keeps as one entry: it holds no line boundary and the
    encoder takes it. *)
Definition storable (x : str) : bool := no_linebreak x && encodable x.

(** How often [x] is an entry of [xs]. *)
Definition occurrences (x : str) (xs : list str) : nat :=
  length (filter (str_eqb x) xs).

(** The registry file as the format has it: one name per line, each line
    closed by LF. *)
Fixpoint registry_text (names : list str) : str :=
  match names with
  | [] => []
  | n :: rest => n ++ LF :: registry_text rest
  end.

(** The store holds exactly the names [names], in the format. *)
Definition holds (names : list str) (w : world) : Prop :=
  Forall (fun n => no_linebreak n = true) names /\
  match store w with
  | File content => content = registry_text names
  | _ => names = []
  end.

(** Appending the names of a list, one after the other. *)
Fixpoint save_all (names : list str) : M unit :=
  match names with
  | [] => ret tt
  | n :: rest => save_operation n ;; save_all rest
  end.

(** Two appends of [x] in a row, as the registry shows them: [before] is read
    first, [after] after the first append and again after the second. *)
Definition idempotent_append (x : str) (w : world) : Prop :=
  exists before after,
    eval read_operations w = Ret before /\
    eval (save_operation x ;; read_operations) w = Ret after /\
    eval (save_operation x ;; save_operation x ;; read_operations) w = Ret after /\
    occurrences x after = 1%nat /\
    (In x before -> after = before) /\
    (~ In x before -> after = before ++ [x]) /\
    (NoDup before -> NoDup after).

Definition no_duplicates (w : world) : Prop :=
  exists names, eval read_operations w = Ret names /\ NoDup names.

(** [x] is not in the registry yet. *)
Definition is_new (x : str) (w : world) : Prop :=
  exists names, eval read_operations w = Ret names /\ ~ In x names.

(** A terminal in its usual mode, nothing on disk, the recorder installed. *)
Definition fresh_world : world :=
  World NoWorkspace (Termios true true true true true) [] [] [] true
        (lit "20240101_120000") (RecExit 0) [] [].

(** The world once [getch] has read a key and [rest] is left to read. *)
Definition key_read (rest : list char) (w : world) : world :=
  set_tty (tty w) (TcSetAttr (tty w)) (set_stdin rest (set_tty raw_mode SetRaw w)).

(** What [render] writes. *)
Fixpoint erase_text (n : nat) : str :=
  match n with
  | O => []
  | S n' => cursor_up ++ clear_line ++ erase_text n'
  end.

Fixpoint draw_text (i : Z) (operations : list str) (selected_index : Z) : str :=
  match operations with
  | [] => []
  | operation :: rest =>
      ((if i =? selected_index then lit "> " else lit "  ") ++ operation ++ [LF])
        ++ draw_text (i + 1) rest selected_index
  end.

Definition render_text (operations : list str) (selected_index : Z) : str :=
  erase_text (length operations) ++ draw_text 0 operations selected_index.

Definition wrote (s : str) (w : world) : world := set_stdout (stdout w ++ s) w.

(** The world once the three keys of an escape sequence have been read. *)
Definition escape_read (k1 k2 : char) (rest : list char) (w : world) : world :=
  key_read rest (key_read (k2 :: rest) (key_read (k1 :: k2 :: rest) w)).

(** What the selector does with a completed escape sequence. *)
Definition escape_control (operations : list str) (selected_index : Z)
    (k1 k2 : char) : outcome control :=
  let num_operations := Z.of_nat (length operations) in
  if str_eqb [ESC; k1; k2] key_up then
    match modulo (selected_index - 1) num_operations with
    | Some i => Ret (Continue i)
    | None => Raise ZeroDivisionError
    end
  else if str_eqb [ESC; k1; k2] key_down then
    match modulo (selected_index + 1) num_operations with
    | Some i => Ret (Continue i)
    | None => Raise ZeroDivisionError
    end
  else Ret (Continue selected_index).

(** The name [run_with_asciinema] takes when it is given none. *)
Definition name_for (names : list str) : str :=
  match names with
  | [] => lit "currentoperation"
  | _ :: _ => last names []
  end.

(** The text of the registry file, none when the file is missing. *)
Definition content_of (w : world) : str :=
  match store w with
  | File content => content
  | _ => []
  end.

(** The registry file is missing or empty, or its last character is LF. *)
Definition terminated (w : world) : Prop :=
  content_of w = [] \/ exists a, content_of w = a ++ [LF].

(** A text without carriage return. *)
Definition no_CR (s : str) : bool := forallb (fun c => negb (N.eqb c CR)) s.

(** The two worlds agree on what lies outside the terminal: the registry,
    the directories made, the recordings and the environment. *)
Definition same_files (w w' : world) : Prop :=
  store w' = store w /\ made_dirs w' = made_dirs w /\
  recordings w' = recordings w /\ asciinema w' = asciinema w /\
  now w' = now w /\ recorder w' = recorder w.

(** The log of [k] calls of [getch] on a terminal with attributes [t]: raw
    mode entered, then [t] restored, [k] times. *)
Fixpoint raw_reads (t : termios) (k : nat) : list tty_call :=
  match k with
  | O => []
  | S k' => SetRaw :: TcSetAttr t :: raw_reads t k'
  end.

(** The cursor is on one of the candidates. *)
Definition on_candidate (operations : list str) (i : Z) : Prop :=
  0 <= i < Z.of_nat (length operations).

(** The line printed above the menu. *)
Definition heading : str := lit "Select an operation:" ++ [LF].

(** The keys of [k] presses of one key. *)
Fixpoint presses (key : list char) (k : nat) : list char :=
  match k with
  | O => []
  | S k' => key ++ presses key k'
  end.

(** The number of bytes of a text in UTF-8. *)
Definition utf8_size (c : char) : nat :=
  if (c <? 128)%N then 1
  else if (c <? 2048)%N then 2
  else if (c <? 65536)%N then 3
  else 4.

Definition utf8_length (s : str) : nat := list_sum (map utf8_size s).

(** A name that [os.makedirs] makes one directory of, right under the base
    directory, and that is not the name the registry file has in its own
    directory: the encoder takes it, it has no NUL and no slash in it and at
    most 255 bytes, and it is not [operations]. *)
Definition plain_name (x : str) : bool :=
  encodable x
  && forallb (fun c => negb (N.eqb c 0) && negb (N.eqb c 47)) x
  && (utf8_length x <=? 255)%nat
  && negb (str_eqb x (lit "operations")).

(** The directory and the file of a recording under the name [x], made at
    the time [now w]. *)
Definition target_dir_of (x : str) : str := path_join base_dir x.

Definition recording_file_of (x : str) (w : world) : str :=
  path_join (target_dir_of x) (lit "session_" ++ now w ++ lit ".cast").

Definition not_installed : exit_arg :=
  ExitStr (lit "Error: asciinema is not installed.").

(** * Properties *)

(** ** Text *)

Lemma str_eqb_eq (a b : str) : str_eqb a b = true <-> a = b.
Proof.
  revert b; induction a as [|x a IH]; intros [|y b]; simpl; split;
    try congruence; try reflexivity.
  - intros H; apply andb_true_iff in H as [Hx Hab].
    apply N.eqb_eq in Hx; apply IH in Hab; congruence.
  - intros H; injection H as -> ->.
    rewrite N.eqb_refl; simpl; now apply IH.
Qed.

Lemma str_eqb_refl (a : str) : str_eqb a a = true.
Proof. now apply str_eqb_eq. Qed.

Lemma mem_In (x : str) (xs : list str) : mem x xs = true <-> In x xs.
Proof.
  unfold mem; rewrite existsb_exists; split.
  - intros (y & Hy & E); apply str_eqb_eq in E; now subst.
  - intros H; exists x; split; [assumption | apply str_eqb_refl].
Qed.

Lemma mem_not_In (x : str) (xs : list str) : mem x xs = false <-> ~ In x xs.
Proof.
  rewrite <- mem_In; destruct (mem x xs); split; congruence.
Qed.

Lemma registry_text_app (names : list str) (x : str) :
  registry_text (names ++ [x]) = registry_text names ++ (x ++ [LF]).
Proof.
  induction names as [|n names IH]; simpl.
  - reflexivity.
  - rewrite IH, <- app_assoc; reflexivity.
Qed.

Lemma linebreak_CR (c : char) : is_linebreak c = false -> N.eqb c CR = false.
Proof.
  intros H; destruct (N.eqb_spec c CR) as [->|]; [discriminate H | reflexivity].
Qed.

Lemma universal_newlines_line (x rest : str) :
  no_linebreak x = true ->
  universal_newlines (x ++ LF :: rest) = x ++ LF :: universal_newlines rest.
Proof.
  induction x as [|c x IH]; simpl; intros H.
  - reflexivity.
  - apply andb_true_iff in H as [Hc Hx]; apply negb_true_iff in Hc.
    rewrite (linebreak_CR _ Hc), (IH Hx); reflexivity.
Qed.

Lemma splitlines_from_line (x line rest : str) :
  no_linebreak x = true ->
  splitlines_from line (x ++ LF :: rest)
  = rev (rev x ++ line) :: splitlines_from [] rest.
Proof.
  revert line; induction x as [|c x IH]; simpl; intros line H.
  - reflexivity.
  - apply andb_true_iff in H as [Hc Hx]; apply negb_true_iff in Hc.
    rewrite Hc, (IH _ Hx), <- app_assoc; reflexivity.
Qed.

(** Reading back what the format wrote. *)
Lemma read_registry_text (names : list str) :
  Forall (fun n => no_linebreak n = true) names ->
  splitlines (universal_newlines (registry_text names)) = names.
Proof.
  unfold splitlines; induction 1 as [|n names Hn _ IH]; simpl.
  - reflexivity.
  - rewrite (universal_newlines_line _ _ Hn), (splitlines_from_line _ _ _ Hn).
    rewrite IH, app_nil_r, rev_involutive; reflexivity.
Qed.

Lemma universal_newlines_nil (s : str) : universal_newlines s = [] -> s = [].
Proof.
  destruct s as [|c s]; simpl; [reflexivity|].
  destruct (N.eqb c CR); discriminate.
Qed.

Lemma splitlines_from_nil (line s : str) :
  splitlines_from line s = [] -> line = [] /\ s = [].
Proof.
  revert line; induction s as [|c s IH]; simpl; intros line H.
  - destruct line; [auto | discriminate].
  - destruct (is_linebreak c); [discriminate|].
    apply IH in H as [H _]; discriminate.
Qed.

(** ** The registry *)

Lemma read_operations_holds (names : list str) (w : world) :
  holds names w ->
  eval read_operations w = Ret names /\
  holds names (exec read_operations w) /\
  store (exec read_operations w) <> NoWorkspace.
Proof.
  intros [Hn Hs]; unfold eval, exec, read_operations, get_operations_file,
    bind, modify, get, ret, holds.
  destruct w as [st t tc si so a n r md rc]; simpl in *.
  destruct st; simpl; subst; repeat split; try assumption; try discriminate.
  now rewrite read_registry_text.
Qed.

(** An empty registry: the file is missing or has no text. *)
Lemma read_operations_empty (w : world) :
  eval read_operations w = Ret [] -> holds [] w.
Proof.
  unfold eval, read_operations, get_operations_file, bind, modify, get, ret, holds.
  destruct w as [st t tc si so a n r md rc]; simpl.
  destruct st; simpl; intros H; split; try constructor; try reflexivity.
  injection H as H; apply splitlines_from_nil in H as [_ H].
  now apply universal_newlines_nil in H.
Qed.

(** What one append does to a registry in the format. *)
Lemma encodable_line (x : str) : encodable (x ++ [LF]) = encodable x.
Proof. unfold encodable; rewrite forallb_app; simpl; apply andb_true_r. Qed.

Lemma storable_parts (x : str) :
  storable x = true -> no_linebreak x = true /\ encodable x = true.
Proof. unfold storable; intros H; now apply andb_true_iff in H. Qed.

Lemma save_operation_holds (names : list str) (x : str) (w : world) :
  holds names w -> storable x = true ->
  eval (save_operation x) w = Ret tt /\
  holds (if mem x names then names else names ++ [x]) (exec (save_operation x) w).
Proof.
  intros [Hn Hs] Hx; apply storable_parts in Hx as [Hx He].
  unfold eval, exec, save_operation, read_operations, get_operations_file,
    append_operations_file, open_append, file_write, bind, modify, get, ret, holds.
  destruct w as [st t tc si so a n r md rc]; simpl in *.
  destruct st; simpl; subst; simpl; rewrite ?encodable_line, ?He; simpl.
  - split; [reflexivity|]; split; [repeat constructor; assumption | reflexivity].
  - split; [reflexivity|]; split; [repeat constructor; assumption | reflexivity].
  - rewrite (read_registry_text _ Hn).
    destruct (mem x names); simpl; rewrite ?encodable_line, ?He; simpl.
    + repeat split; assumption.
    + split; [reflexivity|]; split.
      * apply Forall_app; split; [assumption | repeat constructor; assumption].
      * now rewrite registry_text_app.
Qed.

Lemma run_seq {A B} (m : M A) (k : A -> M B) (w : world) (a : A) :
  eval m w = Ret a -> bind m k w = k a (exec m w).
Proof.
  unfold eval, exec, bind; destruct (m w) as [r w']; simpl; intros ->; reflexivity.
Qed.

Lemma eval_seq {A B} (m : M A) (k : A -> M B) (w : world) (a : A) :
  eval m w = Ret a -> eval (bind m k) w = eval (k a) (exec m w).
Proof. intros H; unfold eval at 1; now rewrite (run_seq _ _ _ _ H). Qed.

Lemma exec_seq {A B} (m : M A) (k : A -> M B) (w : world) (a : A) :
  eval m w = Ret a -> exec (bind m k) w = exec (k a) (exec m w).
Proof. intros H; unfold exec at 1; now rewrite (run_seq _ _ _ _ H). Qed.

Lemma occurrences_app (x : str) (l1 l2 : list str) :
  occurrences x (l1 ++ l2) = (occurrences x l1 + occurrences x l2)%nat.
Proof. unfold occurrences; now rewrite filter_app, length_app. Qed.

Lemma occurrences_not_In (x : str) (l : list str) :
  ~ In x l -> occurrences x l = 0%nat.
Proof.
  unfold occurrences; induction l as [|y l IH]; simpl; intros H.
  - reflexivity.
  - destruct (str_eqb x y) eqn:E.
    + apply str_eqb_eq in E; subst; exfalso; apply H; now left.
    + apply IH; intros Hin; apply H; now right.
Qed.

Lemma occurrences_NoDup (x : str) (l : list str) :
  NoDup l -> In x l -> occurrences x l = 1%nat.
Proof.
  induction 1 as [|y l Hy Hl IH]; intros Hin; [destruct Hin|].
  change (y :: l) with ([y] ++ l); rewrite occurrences_app.
  destruct Hin as [->|Hin].
  - rewrite (occurrences_not_In _ _ Hy); unfold occurrences; simpl.
    now rewrite str_eqb_refl.
  - rewrite (IH Hin); unfold occurrences; simpl.
    destruct (str_eqb x y) eqn:E; [|reflexivity].
    apply str_eqb_eq in E; subst; contradiction.
Qed.

Lemma NoDup_snoc (x : str) (l : list str) :
  NoDup l -> ~ In x l -> NoDup (l ++ [x]).
Proof.
  intros Hl Hx; apply NoDup_app; repeat split.
  - assumption.
  - repeat constructor; intros [].
  - intros y Hy [->|[]]; contradiction.
Qed.

Lemma save_operation_NoDup (x : str) (names : list str) :
  NoDup names -> NoDup (if mem x names then names else names ++ [x]).
Proof.
  intros H; destruct (mem x names) eqn:E; [assumption|].
  apply NoDup_snoc; [assumption | now apply mem_not_In].
Qed.

Lemma save_all_holds (names l0 : list str) (w : world) :
  holds l0 w -> NoDup l0 ->
  Forall (fun n => storable n = true) names ->
  eval (save_all names) w = Ret tt /\
  exists l, holds l (exec (save_all names) w) /\ NoDup l.
Proof.
  intros Hw Hd Hn; revert l0 w Hw Hd.
  induction Hn as [|n names Hn _ IH]; intros l0 w Hw Hd; simpl.
  - split; [reflexivity | exists l0; split; assumption].
  - destruct (save_operation_holds _ _ _ Hw Hn) as [He Hh].
    rewrite (eval_seq _ _ _ _ He), (exec_seq _ _ _ _ He).
    apply (IH _ _ Hh), save_operation_NoDup, Hd.
Qed.

Lemma holds_idempotent_append (names : list str) (x : str) (w : world) :
  holds names w -> NoDup names -> storable x = true ->
  idempotent_append x w.
Proof.
  intros Hw Hd Hx.
  set (after := if mem x names then names else names ++ [x]).
  destruct (save_operation_holds _ _ _ Hw Hx) as [He1 Hh1]; fold after in Hh1.
  assert (Hin : In x after).
  { unfold after; destruct (mem x names) eqn:E; [now apply mem_In|].
    apply in_or_app; right; now left. }
  destruct (save_operation_holds _ _ _ Hh1 Hx) as [He2 Hh2].
  rewrite (proj2 (mem_In _ _) Hin) in Hh2.
  exists names, after; repeat split.
  - apply (read_operations_holds _ _ Hw).
  - rewrite (eval_seq _ _ _ _ He1); apply (read_operations_holds _ _ Hh1).
  - rewrite (eval_seq _ _ _ _ He1), (eval_seq _ _ _ _ He2).
    apply (read_operations_holds _ _ Hh2).
  - apply occurrences_NoDup; [apply save_operation_NoDup|]; assumption.
  - intros H; unfold after; now rewrite (proj2 (mem_In _ _) H).
  - intros H; unfold after; now rewrite (proj2 (mem_not_In _ _) H).
  - intros _; now apply save_operation_NoDup.
Qed.

(** C2, as the code has it: on a registry built from nothing by appends of
    names that hold no line boundary and that the encoder takes, two appends
    of such a name [x] in a row leave [x] in it exactly once, where the first
    of them found or put it, and the registry has no duplicate before or
    after. *)
Theorem append_idempotent (names : list str) (x : str) (w : world) :
  eval read_operations w = Ret [] ->
  Forall (fun n => storable n = true) names ->
  storable x = true ->
  idempotent_append x (exec (save_all names) w) /\
  no_duplicates (exec (save_all names) w).
Proof.
  intros Hw Hn Hx; apply read_operations_empty in Hw.
  destruct (save_all_holds names [] w Hw (NoDup_nil _) Hn) as [_ (l & Hl & Hd)].
  split.
  - exact (holds_idempotent_append _ _ _ Hl Hd Hx).
  - exists l; split; [apply (read_operations_holds _ _ Hl) | exact Hd].
Qed.

Lemma append_idempotent_witness :
  idempotent_append (lit "beta") (exec (save_all [lit "alpha"; lit "beta"]) fresh_world) /\
  no_duplicates (exec (save_all [lit "alpha"; lit "beta"]) fresh_world).
Proof.
  apply (append_idempotent [lit "alpha"; lit "beta"] (lit "beta") fresh_world).
  - reflexivity.
  - repeat constructor.
  - reflexivity.
Defined.

(** C2 as it is written fails for a name with a carriage return in it: the
    name is read back as two lines, so the second append does not find it
    and writes it again. *)
Lemma append_not_idempotent_CR :
  ~ idempotent_append (lit "a" ++ [CR] ++ lit "b") fresh_world.
Proof.
  intros (before & after & _ & H1 & H2 & _).
  vm_compute in H1, H2; rewrite <- H1 in H2; discriminate H2.
Qed.

Example append_CR_registry :
  eval (save_operation (lit "a" ++ [CR] ++ lit "b") ;;
        save_operation (lit "a" ++ [CR] ++ lit "b") ;;
        read_operations) fresh_world
  = Ret [lit "a"; lit "b"; lit "a"; lit "b"].
Proof. reflexivity. Qed.

(** C3, as the code has it: from an empty registry, appending three names
    that hold no line boundary and that the encoder takes, each of them new
    when it is appended, leaves exactly these three, in this order. *)
Theorem append_order (a b c : str) (w : world) :
  eval read_operations w = Ret [] ->
  storable a = true -> storable b = true -> storable c = true ->
  is_new a w ->
  is_new b (exec (save_operation a) w) ->
  is_new c (exec (save_operation a ;; save_operation b) w) ->
  eval (save_operation a ;; save_operation b ;; save_operation c ;;
        read_operations) w = Ret [a; b; c].
Proof.
  intros Hw Ha Hb Hc _ Nb Nc; apply read_operations_empty in Hw.
  destruct (save_operation_holds _ _ _ Hw Ha) as [Ea Hwa]; simpl in Hwa.
  rewrite (exec_seq _ _ _ _ Ea) in Nc.
  destruct Nb as (lb & Rb & Nb); rewrite (proj1 (read_operations_holds _ _ Hwa)) in Rb.
  injection Rb as <-.
  destruct (save_operation_holds _ _ _ Hwa Hb) as [Eb Hwb].
  rewrite (proj2 (mem_not_In _ _) Nb) in Hwb; simpl in Hwb.
  destruct Nc as (lc & Rc & Nc); rewrite (proj1 (read_operations_holds _ _ Hwb)) in Rc.
  injection Rc as <-.
  destruct (save_operation_holds _ _ _ Hwb Hc) as [Ec Hwc].
  rewrite (proj2 (mem_not_In _ _) Nc) in Hwc; simpl in Hwc.
  rewrite (eval_seq _ _ _ _ Ea), (eval_seq _ _ _ _ Eb), (eval_seq _ _ _ _ Ec).
  apply (read_operations_holds _ _ Hwc).
Qed.

Lemma append_order_witness :
  eval (save_operation (lit "a") ;; save_operation (lit "b") ;;
        save_operation (lit "c") ;; read_operations) fresh_world
  = Ret [lit "a"; lit "b"; lit "c"].
Proof.
  apply (append_order (lit "a") (lit "b") (lit "c") fresh_world);
    try reflexivity.
  - exists []; split; [reflexivity | intros []].
  - exists [lit "a"]; split; [reflexivity|].
    intros [H|[]]; discriminate H.
  - exists [lit "a"; lit "b"]; split; [reflexivity|].
    intros [H|[H|[]]]; discriminate H.
Defined.

(** C3 as it is written fails when one of the names holds a carriage
    return: each of the three is new when it is appended, and four lines are
    read back. *)
Lemma append_order_CR :
  let a := lit "x" ++ [CR] ++ lit "y" in
  let b := lit "b" in
  let c := lit "c" in
  eval read_operations fresh_world = Ret [] /\
  is_new a fresh_world /\
  is_new b (exec (save_operation a) fresh_world) /\
  is_new c (exec (save_operation a ;; save_operation b) fresh_world) /\
  eval (save_operation a ;; save_operation b ;; save_operation c ;;
        read_operations) fresh_world
  = Ret [lit "x"; lit "y"; b; c] /\
  eval (save_operation a ;; save_operation b ;; save_operation c ;;
        read_operations) fresh_world
  <> Ret [a; b; c].
Proof.
  repeat split.
  - exists []; split; [reflexivity | intros []].
  - exists [lit "x"; lit "y"]; split; [reflexivity|].
    intros [H|[H|[]]]; discriminate H.
  - exists [lit "x"; lit "y"; lit "b"]; split; [reflexivity|].
    intros [H|[H|[H|[]]]]; discriminate H.
  - intros H; vm_compute in H; discriminate H.
Qed.

(** C4: with no registry file, [read_operations] returns the empty list; it
    neither exits nor raises, and the file is still missing afterwards. *)
Theorem read_operations_missing (w : world) :
  (forall content, store w <> File content) ->
  eval read_operations w = Ret [] /\
  store (exec read_operations w) = NoFile.
Proof.
  intros H; unfold eval, exec, read_operations, get_operations_file, bind,
    modify, get, ret.
  destruct w as [st t tc si so a n r md rc]; simpl in *.
  destruct st; simpl; try (split; reflexivity).
  exfalso; exact (H content eq_refl).
Qed.

Lemma read_operations_missing_witness :
  eval read_operations fresh_world = Ret [] /\
  store (exec read_operations fresh_world) = NoFile.
Proof.
  apply (read_operations_missing fresh_world); intros content; discriminate.
Defined.

(** ** The terminal and the selector *)

Lemma getch_key (c : char) (rest : list char) (w : world) :
  stdin w = c :: rest -> getch w = (Ret [c], key_read rest w).
Proof.
  intros H; unfold getch, tcgetattr, finally, setraw, stdin_read1, tcsetattr,
    bind, modify, get, ret; simpl; rewrite H; reflexivity.
Qed.

Lemma getch_blocked (w : world) :
  stdin w = [] -> getch w = (Blocked, set_tty raw_mode SetRaw w).
Proof.
  intros H; unfold getch, tcgetattr, finally, setraw, stdin_read1, tcsetattr,
    bind, modify, get, ret; simpl; rewrite H; reflexivity.
Qed.

Lemma wrote_nil (w : world) : wrote [] w = w.
Proof. destruct w; unfold wrote, set_stdout; simpl; now rewrite app_nil_r. Qed.

Lemma wrote_wrote (s1 s2 : str) (w : world) :
  wrote s2 (wrote s1 w) = wrote (s1 ++ s2) w.
Proof. unfold wrote, set_stdout; simpl; now rewrite app_assoc. Qed.

Lemma clear_previous_lines_wrote (n : Z) (w : world) :
  clear_previous_lines n w = (Ret tt, wrote (erase_text (Z.to_nat n)) w).
Proof.
  unfold clear_previous_lines; generalize (Z.to_nat n) as k; intros k; revert w.
  induction k as [|k IH]; intros w; simpl.
  - now rewrite wrote_nil.
  - unfold bind at 1 2, write at 1 2, modify; rewrite IH.
    fold (wrote cursor_up w); fold (wrote clear_line (wrote cursor_up w)).
    rewrite !wrote_wrote; reflexivity.
Qed.

Lemma draw_from_wrote (operations : list str) (i selected_index : Z) (w : world) :
  draw_from i operations selected_index w
  = (Ret tt, wrote (draw_text i operations selected_index) w).
Proof.
  revert i w; induction operations as [|operation rest IH]; intros i w; simpl.
  - now rewrite wrote_nil.
  - unfold bind; destruct (i =? selected_index); unfold print, write, modify;
      rewrite IH;
      match goal with
      | |- context [set_stdout (stdout w ++ ?s) w] => fold (wrote s w)
      end;
      now rewrite wrote_wrote, <- !app_assoc.
Qed.

Lemma render_wrote (operations : list str) (selected_index : Z) (w : world) :
  render operations selected_index w
  = (Ret tt, wrote (render_text operations selected_index) w).
Proof.
  unfold render, bind; rewrite clear_previous_lines_wrote, draw_from_wrote.
  now rewrite wrote_wrote, Nat2Z.id.
Qed.

Lemma bind_ret {A B} (m : M A) (k : A -> M B) (w w' : world) (a : A) :
  m w = (Ret a, w') -> bind m k w = k a w'.
Proof. unfold bind; now intros ->. Qed.

Lemma bind_blocked {A B} (m : M A) (k : A -> M B) (w w' : world) :
  m w = (Blocked, w') -> bind m k w = (Blocked, w').
Proof. unfold bind; now intros ->. Qed.

Lemma bind_exit {A B} (m : M A) (k : A -> M B) (w w' : world) (arg : exit_arg) :
  m w = (SysExit arg, w') -> bind m k w = (SysExit arg, w').
Proof. unfold bind; now intros ->. Qed.

Lemma of_option_run {A} (e : exn) (o : option A) (w : world) :
  of_option e o w = (match o with Some a => Ret a | None => Raise e end, w).
Proof. destruct o; reflexivity. Qed.

Lemma handle_key_escape (operations : list str) (selected_index : Z)
    (k1 k2 : char) (rest : list char) (w : world) :
  stdin w = ESC :: k1 :: k2 :: rest ->
  handle_key operations selected_index w
  = (escape_control operations selected_index k1 k2, escape_read k1 k2 rest w).
Proof.
  intros H; unfold handle_key, escape_control, escape_read.
  rewrite (bind_ret _ _ _ _ _ (getch_key _ _ _ H)).
  change (str_eqb [ESC] [ESC]) with true; cbv iota.
  rewrite (bind_ret _ _ _ _ _
             (getch_key k1 (k2 :: rest) (key_read (k1 :: k2 :: rest) w) eq_refl)).
  rewrite (bind_ret _ _ _ _ _
             (getch_key k2 rest (key_read (k2 :: rest) (key_read (k1 :: k2 :: rest) w))
                        eq_refl)).
  change ([ESC] ++ [k1] ++ [k2]) with [ESC; k1; k2].
  destruct (str_eqb [ESC; k1; k2] key_up).
  - unfold bind; rewrite of_option_run; destruct (modulo _ _); reflexivity.
  - destruct (str_eqb [ESC; k1; k2] key_down); [|reflexivity].
    unfold bind; rewrite of_option_run; destruct (modulo _ _); reflexivity.
Qed.

Lemma handle_key_escape_1 (operations : list str) (selected_index : Z) (w : world) :
  stdin w = [ESC] ->
  handle_key operations selected_index w
  = (Blocked, set_tty raw_mode SetRaw (key_read [] w)).
Proof.
  intros H; unfold handle_key.
  rewrite (bind_ret _ _ _ _ _ (getch_key _ _ _ H)).
  change (str_eqb [ESC] [ESC]) with true; cbv iota.
  now rewrite (bind_blocked _ _ _ _ (getch_blocked (key_read [] w) eq_refl)).
Qed.

Lemma handle_key_escape_2 (operations : list str) (selected_index : Z)
    (k1 : char) (w : world) :
  stdin w = [ESC; k1] ->
  handle_key operations selected_index w
  = (Blocked, set_tty raw_mode SetRaw (key_read [] (key_read [k1] w))).
Proof.
  intros H; unfold handle_key.
  rewrite (bind_ret _ _ _ _ _ (getch_key _ _ _ H)).
  change (str_eqb [ESC] [ESC]) with true; cbv iota.
  rewrite (bind_ret _ _ _ _ _ (getch_key k1 [] (key_read [k1] w) eq_refl)).
  now rewrite (bind_blocked _ _ _ _
                 (getch_blocked (key_read [] (key_read [k1] w)) eq_refl)).
Qed.

Lemma handle_key_enter (operations : list str) (selected_index : Z)
    (c : char) (rest : list char) (w : world) :
  stdin w = c :: rest -> c = LF \/ c = CR ->
  handle_key operations selected_index w
  = (match index operations selected_index with
     | Some operation => Ret (Return operation)
     | None => Raise IndexError
     end,
     wrote (erase_text (Z.to_nat (Z.of_nat (length operations) + 1)))
           (key_read rest w)).
Proof.
  intros H Hc; unfold handle_key.
  rewrite (bind_ret _ _ _ _ _ (getch_key _ _ _ H)).
  replace (str_eqb [c] [ESC]) with false by (destruct Hc; subst; reflexivity).
  replace (mem [c] [[LF]; [CR]]) with true by (destruct Hc; subst; reflexivity).
  rewrite (bind_ret _ _ _ _ _ (clear_previous_lines_wrote _ _)).
  unfold bind; rewrite of_option_run.
  destruct (index operations selected_index); reflexivity.
Qed.

Lemma handle_key_cancel (operations : list str) (selected_index : Z)
    (rest : list char) (w : world) :
  stdin w = ETX :: rest ->
  handle_key operations selected_index w
  = (SysExit (ExitInt 0), key_read rest w).
Proof.
  intros H; unfold handle_key.
  now rewrite (bind_ret _ _ _ _ _ (getch_key _ _ _ H)).
Qed.

Lemma handle_key_other (operations : list str) (selected_index : Z)
    (c : char) (rest : list char) (w : world) :
  stdin w = c :: rest ->
  c <> ESC -> c <> LF -> c <> CR -> c <> ETX ->
  handle_key operations selected_index w
  = (Ret (Continue selected_index), key_read rest w).
Proof.
  intros H H1 H2 H3 H4; unfold handle_key.
  rewrite (bind_ret _ _ _ _ _ (getch_key _ _ _ H)); unfold mem; simpl.
  apply N.eqb_neq in H1, H2, H3, H4.
  now rewrite H1, H2, H3, H4.
Qed.

Lemma handle_key_blocked (operations : list str) (selected_index : Z) (w : world) :
  stdin w = [] ->
  handle_key operations selected_index w = (Blocked, set_tty raw_mode SetRaw w).
Proof.
  intros H; unfold handle_key; now rewrite (bind_blocked _ _ _ _ (getch_blocked _ H)).
Qed.

Lemma modulo_range (a n : Z) (i : Z) :
  modulo a n = Some i -> 0 < n -> 0 <= i < n.
Proof.
  unfold modulo; destruct (n =? 0); [discriminate|].
  intros H Hn; injection H as <-; now apply Z.mod_pos_bound.
Qed.

Lemma index_In {A} (xs : list A) (i : Z) (x : A) :
  index xs i = Some x -> In x xs.
Proof.
  unfold index; intros H.
  destruct ((0 <=? i) && (i <? Z.of_nat (length xs))).
  - eapply nth_error_In, H.
  - destruct ((- Z.of_nat (length xs) <=? i) && (i <? 0)); [|discriminate].
    eapply nth_error_In, H.
Qed.

(** One key, whatever it is: the model's fuel is not touched, the terminal
    attributes are back unless the read is still waiting, a turn that goes
    on has taken a key and keeps the cursor in range, and a turn that
    returns gives the entry under the cursor. *)
Lemma handle_key_cases (operations : list str) (selected_index : Z) (w : world) :
  let r := fst (handle_key operations selected_index w) in
  let w' := snd (handle_key operations selected_index w) in
  r <> OutOfFuel /\
  (r <> Blocked -> tty w' = tty w) /\
  (forall i, r = Ret (Continue i) ->
     (length (stdin w') < length (stdin w))%nat /\
     (0 <= selected_index < Z.of_nat (length operations) ->
      0 <= i < Z.of_nat (length operations))) /\
  (forall v, r = Ret (Return v) -> index operations selected_index = Some v).
Proof.
  destruct (stdin w) as [|c rest] eqn:H.
  { rewrite (handle_key_blocked _ _ _ H); simpl.
    repeat split; try discriminate; congruence. }
  destruct (N.eq_dec c ESC) as [->|H1].
  { destruct rest as [|k1 [|k2 rest]].
    - rewrite (handle_key_escape_1 _ _ _ H); simpl.
      repeat split; try discriminate; congruence.
    - rewrite (handle_key_escape_2 _ _ _ _ H); simpl.
      repeat split; try discriminate; congruence.
    - rewrite (handle_key_escape _ _ _ _ _ _ H); simpl fst; simpl snd.
      change (stdin (escape_read k1 k2 rest w)) with rest.
      change (tty (escape_read k1 k2 rest w)) with (tty w).
      unfold escape_control.
      destruct (str_eqb [ESC; k1; k2] key_up);
        [|destruct (str_eqb [ESC; k1; k2] key_down)];
        try (destruct (modulo _ _) as [j|] eqn:E);
        (split; [discriminate|]); (split; [reflexivity|]);
        (split; [|discriminate]); intros i Hi;
        try discriminate Hi; injection Hi as <-;
        (split; [simpl; lia|]); intros Hr;
        solve [ eapply modulo_range; [exact E | lia] | exact Hr ]. }
  destruct (N.eq_dec c LF) as [->|H2];
    [|destruct (N.eq_dec c CR) as [->|H3]].
  1, 2: rewrite (handle_key_enter _ _ _ _ _ H) by auto; simpl;
    destruct (index operations selected_index);
    repeat split; try discriminate; congruence.
  destruct (N.eq_dec c ETX) as [->|H4].
  { rewrite (handle_key_cancel _ _ _ _ H); simpl.
    repeat split; discriminate. }
  rewrite (handle_key_other _ _ _ _ _ H) by assumption; simpl.
  (split; [discriminate|]); (split; [reflexivity|]);
    (split; [|discriminate]); intros i Hi; injection Hi as <-.
  split; [lia | auto].
Qed.

Lemma loop_body_run (operations : list str) (selected_index : Z) (w : world) :
  loop_body operations selected_index w
  = handle_key operations selected_index
      (wrote (render_text operations selected_index) w).
Proof. unfold loop_body; now rewrite (bind_ret _ _ _ _ _ (render_wrote _ _ _)). Qed.

Lemma select_loop_S (fuel : nat) (operations : list str)
    (selected_index : Z) (w : world) :
  select_loop (S fuel) operations selected_index w
  = let (r, w') := handle_key operations selected_index
                     (wrote (render_text operations selected_index) w) in
    match r with
    | Ret (Continue i) => select_loop fuel operations i w'
    | Ret (Return operation) => (Ret operation, w')
    | SysExit arg => (SysExit arg, w')
    | Raise e => (Raise e, w')
    | Blocked => (Blocked, w')
    | OutOfFuel => (OutOfFuel, w')
    end.
Proof.
  simpl select_loop; unfold bind at 1; rewrite loop_body_run.
  destruct (handle_key _ _ _) as [[[i|v]| | | |] w']; reflexivity.
Qed.

(** The loop, with fuel for more turns than there are keys: the fuel does
    not run out, the terminal attributes are back whenever the loop is left,
    and what is returned is a candidate. *)
Lemma select_loop_cases (fuel : nat) (operations : list str)
    (selected_index : Z) (w : world) :
  (length (stdin w) < fuel)%nat ->
  let r := fst (select_loop fuel operations selected_index w) in
  let w' := snd (select_loop fuel operations selected_index w) in
  r <> OutOfFuel /\
  (r <> Blocked -> tty w' = tty w) /\
  (forall v, r = Ret v ->
     0 <= selected_index < Z.of_nat (length operations) -> In v operations).
Proof.
  revert selected_index w; induction fuel as [|fuel IH];
    intros selected_index w Hf; [lia|].
  cbv zeta; rewrite select_loop_S.
  set (w1 := wrote (render_text operations selected_index) w).
  destruct (handle_key_cases operations selected_index w1) as (F & T & C & R).
  destruct (handle_key operations selected_index w1) as [r w2]; simpl in F, T, C, R.
  destruct r as [[i|v]| | | |]; simpl fst; simpl snd.
  - destruct (C i eq_refl) as [Hlen Hrange].
    change (stdin w1) with (stdin w) in Hlen.
    assert (Hf' : (length (stdin w2) < fuel)%nat) by lia.
    destruct (IH i w2 Hf') as (F' & T' & R').
    split; [exact F'|]; split.
    + intros Hb; rewrite (T' Hb); apply T; discriminate.
    + intros v Hv Hr; exact (R' v Hv (Hrange Hr)).
  - split; [discriminate|]; split; [intros _; apply T; discriminate|].
    intros v' Hv _; injection Hv as <-; exact (index_In _ _ _ (R v eq_refl)).
  - split; [discriminate|]; split; [intros _; apply T|]; discriminate.
  - split; [discriminate|]; split; [intros _; apply T|]; discriminate.
  - split; [discriminate|]; split; [congruence | discriminate].
  - contradiction.
Qed.

Lemma index_nil {A} (i : Z) : @index A [] i = None.
Proof.
  unfold index; simpl.
  destruct ((0 <=? i) && (i <? 0)); [now destruct (Z.to_nat i)|].
  destruct ((- 0 <=? i) && (i <? 0)); [now destruct (Z.to_nat (0 + i))|].
  reflexivity.
Qed.

Lemma select_loop_nil (fuel : nat) (selected_index : Z) (w : world) (v : str) :
  fst (select_loop fuel [] selected_index w) <> Ret v.
Proof.
  revert selected_index w; induction fuel as [|fuel IH]; intros selected_index w.
  - discriminate.
  - rewrite select_loop_S.
    set (w1 := wrote _ w).
    destruct (handle_key_cases [] selected_index w1) as (_ & _ & _ & R).
    destruct (handle_key [] selected_index w1) as [r w2]; simpl in R.
    destruct r as [[i|v']| | | |]; simpl; try discriminate.
    + apply IH.
    + specialize (R v' eq_refl); rewrite index_nil in R; discriminate R.
Qed.

(** The selector as a whole never shows the model's [OutOfFuel]; it leaves
    the terminal attributes as it found them unless it is still waiting for
    a key; and a name it returns is one of the candidates. *)
Lemma select_operation_fuel (operations : list str) (w : world) :
  eval (select_operation operations) w <> OutOfFuel /\
  (eval (select_operation operations) w <> Blocked ->
   tty (exec (select_operation operations) w) = tty w) /\
  (forall v, eval (select_operation operations) w = Ret v -> In v operations).
Proof.
  assert (E : select_operation operations w
              = select_loop (S (length (stdin w))) operations 0
                  (wrote (lit "Select an operation:" ++ [LF]) w)) by reflexivity.
  unfold eval, exec; rewrite E.
  set (w1 := wrote _ w).
  destruct (select_loop_cases (S (length (stdin w1))) operations 0 w1
              (Nat.lt_succ_diag_r _)) as (F & T & R).
  change (stdin w1) with (stdin w) in F, T, R.
  split; [exact F|]; split; [exact T|].
  intros v Hv; destruct operations as [|o operations].
  - exfalso; exact (select_loop_nil _ _ _ _ Hv).
  - apply (R v Hv); simpl length; lia.
Qed.

Lemma escape_control_keys (operations : list str) (selected_index : Z)
    (k1 k2 : char) :
  operations <> [] ->
  escape_control operations selected_index k1 k2
  = Ret (Continue
           (if N.eqb k1 91 && N.eqb k2 65
            then (selected_index - 1) mod Z.of_nat (length operations)
            else if N.eqb k1 91 && N.eqb k2 66
            then (selected_index + 1) mod Z.of_nat (length operations)
            else selected_index)).
Proof.
  intros Hne; unfold escape_control, modulo.
  assert (E : (Z.of_nat (length operations) =? 0) = false).
  { apply Z.eqb_neq; destruct operations; [contradiction | simpl; lia]. }
  rewrite E; simpl str_eqb; rewrite !andb_true_r.
  destruct (N.eqb k1 91 && N.eqb k2 65); [reflexivity|].
  destruct (N.eqb k1 91 && N.eqb k2 66); reflexivity.
Qed.

(** C5: on a list of [n > 0] candidates an up arrow takes the cursor to
    [(cursor - 1 + n) mod n] and a down arrow to [(cursor + 1) mod n], and
    the three keys of the arrow are gone from the input; on three candidates
    the cursor goes 0, 1, 2, 0 with down arrows and from 0 to 2 with an up
    arrow. *)
Theorem selector_wraparound (operations : list str) (selected_index : Z)
    (rest : list char) (w : world) :
  operations <> [] ->
  let n := Z.of_nat (length operations) in
  let up := set_stdin (key_up ++ rest) w in
  let down := set_stdin (key_down ++ rest) w in
  (eval (loop_body operations selected_index) up
   = Ret (Continue ((selected_index - 1 + n) mod n)) /\
   stdin (exec (loop_body operations selected_index) up) = rest) /\
  (eval (loop_body operations selected_index) down
   = Ret (Continue ((selected_index + 1) mod n)) /\
   stdin (exec (loop_body operations selected_index) down) = rest) /\
  (forall x y z : str,
     eval (loop_body [x; y; z] 0) down = Ret (Continue 1) /\
     eval (loop_body [x; y; z] 1) down = Ret (Continue 2) /\
     eval (loop_body [x; y; z] 2) down = Ret (Continue 0) /\
     eval (loop_body [x; y; z] 0) up = Ret (Continue 2)).
Proof.
  intros Hne n up down.
  assert (Hup : forall ops i, ops <> [] ->
            loop_body ops i up
            = (Ret (Continue ((i - 1) mod Z.of_nat (length ops))),
               escape_read 91%N 65%N rest (wrote (render_text ops i) up))).
  { intros ops i Hops; rewrite loop_body_run.
    rewrite (handle_key_escape ops i 91%N 65%N rest
               (wrote (render_text ops i) up) eq_refl).
    now rewrite (escape_control_keys _ _ _ _ Hops). }
  assert (Hdown : forall ops i, ops <> [] ->
            loop_body ops i down
            = (Ret (Continue ((i + 1) mod Z.of_nat (length ops))),
               escape_read 91%N 66%N rest (wrote (render_text ops i) down))).
  { intros ops i Hops; rewrite loop_body_run.
    rewrite (handle_key_escape ops i 91%N 66%N rest
               (wrote (render_text ops i) down) eq_refl).
    now rewrite (escape_control_keys _ _ _ _ Hops). }
  unfold eval, exec; split; [split | split; [split | intros x y z]].
  - rewrite (Hup _ _ Hne); simpl fst; fold n.
    replace (selected_index - 1 + n) with (selected_index - 1 + 1 * n) by lia.
    now rewrite Z_mod_plus_full.
  - now rewrite (Hup _ _ Hne).
  - now rewrite (Hdown _ _ Hne).
  - now rewrite (Hdown _ _ Hne).
  - rewrite !Hdown, Hup by discriminate; repeat split.
Qed.

Lemma selector_wraparound_witness :
  eval (loop_body [lit "x"; lit "y"; lit "z"] 0)
       (set_stdin (key_up ++ [CR]) fresh_world)
  = Ret (Continue 2).
Proof.
  refine (proj1 (proj1 (selector_wraparound [lit "x"; lit "y"; lit "z"] 0 [CR]
                          fresh_world _))).
  discriminate.
Defined.

(** The same cursor, seen through what Enter returns. *)
Example wraparound_runs (x y z : str) (w : world) :
  eval (select_operation [x; y; z]) (set_stdin (key_down ++ key_down ++ [CR]) w)
  = Ret z /\
  eval (select_operation [x; y; z])
       (set_stdin (key_down ++ key_down ++ key_down ++ [CR]) w)
  = Ret x /\
  eval (select_operation [x; y; z]) (set_stdin (key_up ++ [CR]) w) = Ret z.
Proof. repeat split. Qed.

Lemma index_in_range {A} (xs : list A) (i : Z) :
  0 <= i < Z.of_nat (length xs) -> index xs i = nth_error xs (Z.to_nat i).
Proof.
  intros H; unfold index.
  replace ((0 <=? i) && (i <? Z.of_nat (length xs))) with true; [reflexivity|].
  symmetry; apply andb_true_iff; split; [apply Z.leb_le | apply Z.ltb_lt]; lia.
Qed.

(** C6: with the cursor on an entry, Enter (LF or CR) makes the selector
    return exactly that entry, after erasing the menu and its heading; on
    [alpha, beta], a down arrow and Enter return [beta]. *)
Theorem confirm_returns_candidate (operations : list str) (selected_index : Z)
    (c : char) (rest : list char) (w : world) :
  0 <= selected_index < Z.of_nat (length operations) ->
  c = LF \/ c = CR ->
  let w' := exec (loop_body operations selected_index) (set_stdin (c :: rest) w) in
  (exists operation,
     nth_error operations (Z.to_nat selected_index) = Some operation /\
     eval (loop_body operations selected_index) (set_stdin (c :: rest) w)
     = Ret (Return operation)) /\
  stdout w' = (stdout w ++ render_text operations selected_index)
                ++ erase_text (S (length operations)) /\
  tty w' = tty w /\
  (forall alpha beta : str,
     eval (select_operation [alpha; beta]) (set_stdin (key_down ++ c :: rest) w)
     = Ret beta).
Proof.
  intros Hr Hc w'; unfold eval, exec in *.
  assert (E : loop_body operations selected_index (set_stdin (c :: rest) w)
              = (match nth_error operations (Z.to_nat selected_index) with
                 | Some operation => Ret (Return operation)
                 | None => Raise IndexError
                 end,
                 wrote (erase_text (S (length operations)))
                   (key_read rest
                      (wrote (render_text operations selected_index)
                         (set_stdin (c :: rest) w))))).
  { rewrite loop_body_run.
    rewrite (handle_key_enter operations selected_index c rest
               (wrote (render_text operations selected_index)
                  (set_stdin (c :: rest) w)) eq_refl Hc).
    rewrite (index_in_range _ _ Hr).
    replace (Z.to_nat (Z.of_nat (length operations) + 1))
      with (S (length operations)) by lia.
    reflexivity. }
  subst w'; rewrite E; clear E.
  split; [|split; [reflexivity | split; [reflexivity|]]].
  - destruct (nth_error operations (Z.to_nat selected_index)) as [o|] eqn:En.
    + exists o; split; reflexivity.
    + exfalso; apply nth_error_None in En; lia.
  - intros alpha beta; destruct Hc; subst c; reflexivity.
Qed.

Lemma confirm_returns_candidate_witness :
  exists operation,
    nth_error [lit "alpha"; lit "beta"] (Z.to_nat 1) = Some operation /\
    eval (loop_body [lit "alpha"; lit "beta"] 1) (set_stdin [CR] fresh_world)
    = Ret (Return operation).
Proof.
  refine (proj1 (confirm_returns_candidate [lit "alpha"; lit "beta"] 1 CR []
                   fresh_world _ _)).
  - simpl; lia.
  - right; reflexivity.
Defined.

(** C7: after ESC the selector reads two more keys before it does anything.
    With all three there, it takes exactly these three from the input and
    moves the cursor up for [ESC [ A], down for [ESC [ B] and not at all for
    any other two keys; in each case it has written nothing but the menu
    drawn before the read.  With only ESC, or ESC and one more key, it waits,
    and has written nothing more either. *)
Theorem escape_sequence_atomic (operations : list str) (selected_index : Z)
    (k1 k2 : char) (rest : list char) (w : world) :
  operations <> [] ->
  let n := Z.of_nat (length operations) in
  let turn keys := loop_body operations selected_index (set_stdin keys w) in
  let menu := stdout w ++ render_text operations selected_index in
  (fst (turn (ESC :: k1 :: k2 :: rest))
   = Ret (Continue
            (if N.eqb k1 91 && N.eqb k2 65 then (selected_index - 1) mod n
             else if N.eqb k1 91 && N.eqb k2 66 then (selected_index + 1) mod n
             else selected_index)) /\
   stdin (snd (turn (ESC :: k1 :: k2 :: rest))) = rest /\
   stdout (snd (turn (ESC :: k1 :: k2 :: rest))) = menu) /\
  (fst (turn [ESC]) = Blocked /\ stdout (snd (turn [ESC])) = menu) /\
  (fst (turn [ESC; k1]) = Blocked /\ stdout (snd (turn [ESC; k1])) = menu).
Proof.
  intros Hne n turn menu; subst turn; cbv beta.
  rewrite !loop_body_run.
  rewrite (handle_key_escape operations selected_index k1 k2 rest
             (wrote (render_text operations selected_index)
                (set_stdin (ESC :: k1 :: k2 :: rest) w)) eq_refl).
  rewrite (handle_key_escape_1 operations selected_index
             (wrote (render_text operations selected_index)
                (set_stdin [ESC] w)) eq_refl).
  rewrite (handle_key_escape_2 operations selected_index k1
             (wrote (render_text operations selected_index)
                (set_stdin [ESC; k1] w)) eq_refl).
  rewrite (escape_control_keys _ _ _ _ Hne).
  repeat split.
Qed.

Lemma escape_sequence_atomic_witness :
  fst (loop_body [lit "x"; lit "y"; lit "z"] 0
         (set_stdin (ESC :: 91%N :: 65%N :: [CR]) fresh_world))
  = Ret (Continue 2).
Proof.
  refine (proj1 (proj1 (escape_sequence_atomic [lit "x"; lit "y"; lit "z"] 0
                          91%N 65%N [CR] fresh_world _))).
  discriminate.
Defined.

(** The three keys of an up arrow make one move, seen through Enter; alone,
    ESC and the key after it leave the selector waiting. *)
Example escape_runs (x y z : str) (w : world) :
  eval (select_operation [x; y; z]) (set_stdin (ESC :: 91%N :: 65%N :: [CR]) w)
  = Ret z /\
  eval (select_operation [x; y; z]) (set_stdin [ESC] w) = Blocked /\
  eval (select_operation [x; y; z]) (set_stdin [ESC; 91%N] w) = Blocked /\
  eval (select_operation [x; y; z]) (set_stdin [ESC; ETX; CR] w) = Blocked.
Proof. repeat split. Qed.

(** C8: a key that is not ESC, LF, CR or 0x03 is taken from the input and
    nothing else happens: no exit, no error, no result, the cursor and the
    terminal attributes as before, nothing written after the menu. *)
Theorem unrecognized_key_ignored (operations : list str) (selected_index : Z)
    (c : char) (rest : list char) (w : world) :
  c <> ESC -> c <> LF -> c <> CR -> c <> ETX ->
  let w' := exec (loop_body operations selected_index) (set_stdin (c :: rest) w) in
  eval (loop_body operations selected_index) (set_stdin (c :: rest) w)
  = Ret (Continue selected_index) /\
  stdin w' = rest /\
  stdout w' = stdout w ++ render_text operations selected_index /\
  tty w' = tty w /\
  store w' = store w.
Proof.
  intros H1 H2 H3 H4 w'; subst w'; unfold eval, exec.
  rewrite loop_body_run.
  rewrite (handle_key_other operations selected_index c rest
             (wrote (render_text operations selected_index)
                (set_stdin (c :: rest) w)) eq_refl H1 H2 H3 H4).
  repeat split.
Qed.

Lemma unrecognized_key_ignored_witness :
  eval (loop_body [lit "alpha"; lit "beta"] 1) (set_stdin [113%N; CR] fresh_world)
  = Ret (Continue 1).
Proof.
  refine (proj1 (unrecognized_key_ignored [lit "alpha"; lit "beta"] 1 113%N [CR]
                   fresh_world _ _ _ _)); discriminate.
Defined.

(** C1, what the code does on 0x03: it exits with status 0, returns nothing
    and leaves the terminal attributes as they were, but it writes nothing
    after the menu it has drawn, where Enter writes the erase of the
    candidates and the heading. *)
Theorem cancel_leaves_menu (operations : list str) (selected_index : Z)
    (rest : list char) (w : world) :
  let w' := exec (loop_body operations selected_index) (set_stdin (ETX :: rest) w) in
  eval (loop_body operations selected_index) (set_stdin (ETX :: rest) w)
  = SysExit (ExitInt 0) /\
  exit_status (ExitInt 0) = 0 /\
  tty w' = tty w /\
  stdout w' = stdout w ++ render_text operations selected_index /\
  stdout (exec (select_operation [lit "alpha"; lit "beta"])
            (set_stdin [ETX] fresh_world))
  = (lit "Select an operation:" ++ [LF]) ++ erase_text 2
      ++ (lit "> alpha" ++ [LF]) ++ (lit "  beta" ++ [LF]).
Proof.
  intros w'; subst w'; unfold eval, exec.
  rewrite loop_body_run.
  rewrite (handle_key_cancel operations selected_index rest
             (wrote (render_text operations selected_index)
                (set_stdin (ETX :: rest) w)) eq_refl).
  repeat split.
Qed.

(** ** Recording and the command line *)

Lemma index_last {A} (xs : list A) (d : A) :
  xs <> [] -> index xs (-1) = Some (last xs d).
Proof.
  intros H; rewrite (app_removelast_last d H) at 1.
  set (l := removelast xs); set (a := last xs d).
  unfold index; rewrite length_app; simpl length.
  replace ((0 <=? -1) && (-1 <? Z.of_nat (length l + 1))) with false by reflexivity.
  replace ((- Z.of_nat (length l + 1) <=? -1) && (-1 <? 0)) with true.
  - replace (Z.to_nat (Z.of_nat (length l + 1) + -1)) with (length l) by lia.
    now rewrite nth_error_app2, Nat.sub_diag by lia.
  - symmetry; apply andb_true_iff; split; [apply Z.leb_le; lia | reflexivity].
Qed.

(** [read_operations] changes nothing but the missing directory, and gives
    the same list when it is called again. *)
Lemma read_operations_run (w : world) :
  exists names,
    read_operations w = (Ret names, exec get_operations_file w) /\
    read_operations (exec get_operations_file w)
    = (Ret names, exec get_operations_file w).
Proof.
  destruct w as [st t tc si so a n r md rc]; destruct st;
    eexists; split; reflexivity.
Qed.

Lemma get_operations_file_frame (w : world) :
  let w' := exec get_operations_file w in
  tty w' = tty w /\ tty_calls w' = tty_calls w /\ stdin w' = stdin w /\
  stdout w' = stdout w /\ made_dirs w' = made_dirs w /\
  recordings w' = recordings w.
Proof.
  destruct w as [st t tc si so a n r md rc]; destruct st; repeat split.
Qed.

Lemma default_operation_name_run (w : world) (names : list str) :
  eval read_operations w = Ret names ->
  default_operation_name w = (Ret (name_for names), exec get_operations_file w).
Proof.
  destruct (read_operations_run w) as (l & E1 & E2).
  unfold eval; rewrite E1; simpl; intros H; injection H as ->.
  unfold default_operation_name.
  rewrite (bind_ret _ _ _ _ _ E1).
  destruct names as [|n names]; [reflexivity|].
  rewrite (bind_ret _ _ _ _ _ E2).
  rewrite of_option_run, (index_last (n :: names) ([] : str)) by discriminate.
  reflexivity.
Qed.

(** One step of a run whose first action returns by computation. *)
Ltac run_ret :=
  match goal with
  | |- context [bind ?m ?k ?w] => rewrite (bind_ret m k w _ _ eq_refl)
  end.

(** C10: given no name, [run_with_asciinema] goes on exactly as if it had
    been given the last entry of the registry, or [currentoperation] when
    the registry is empty: this name makes the output directory and is the
    one appended to the registry. *)
Theorem default_name_rule (command : str) (w : world) (names : list str) :
  asciinema w = true ->
  eval read_operations w = Ret names ->
  let name := match names with
              | [] => lit "currentoperation"
              | _ :: _ => last names []
              end in
  let w' := exec (run_with_asciinema command None) w in
  eval default_operation_name w = Ret name /\
  run_with_asciinema command None w = run_with_asciinema command (Some name) w /\
  made_dirs w' = made_dirs w ++ [path_join base_dir name] /\
  store w' = store (exec (save_operation name) w).
Proof.
  intros Ha Hr name w'; fold (name_for names) in name.
  pose proof (default_operation_name_run w names Hr) as Hd.
  assert (Hrun : run_with_asciinema command None w
                 = run_with_asciinema command (Some name) w).
  { unfold run_with_asciinema.
    do 2 (run_ret; cbv beta); rewrite Ha.
    do 2 (run_ret; cbv beta).
    rewrite (bind_ret _ _ _ _ _ Hd); run_ret; cbv beta.
    destruct w as [st t tc si so a n r md rc]; destruct st; reflexivity. }
  split; [unfold eval; now rewrite Hd|]; split; [exact Hrun|].
  subst w'; unfold exec; rewrite Hrun; clear Hrun Hd Hr.
  unfold run_with_asciinema.
  run_ret; cbv beta; rewrite Ha.
  do 2 (run_ret; cbv beta).
  destruct w as [st t tc si so a n r md rc].
  unfold save_operation, read_operations, get_operations_file,
    append_operations_file, open_append, file_write, bind, modify, get, ret,
    raise, sys_exit, print, write; simpl.
  destruct st; simpl.
  - destruct (encodable (name ++ [LF])); simpl;
      (destruct r as [rc'|text]; [destruct (negb (rc' =? 0))|]); split; reflexivity.
  - destruct (encodable (name ++ [LF])); simpl;
      (destruct r as [rc'|text]; [destruct (negb (rc' =? 0))|]); split; reflexivity.
  - destruct (negb (mem name (splitlines (universal_newlines content)))); simpl;
      [destruct (encodable (name ++ [LF])); simpl|];
      (destruct r as [rc'|text]; [destruct (negb (rc' =? 0))|]); split; reflexivity.
Qed.

Lemma default_name_rule_witness :
  run_with_asciinema (lit "bash") None fresh_world
  = run_with_asciinema (lit "bash") (Some (lit "currentoperation")) fresh_world.
Proof.
  refine (proj1 (proj2 (default_name_rule (lit "bash") fresh_world [] _ _)));
    reflexivity.
Defined.

(** With entries in the registry the last one is taken, and nothing is
    appended; with none, [currentoperation] is appended. *)
Example default_name_runs :
  let w := set_store (File (registry_text [lit "alpha"; lit "beta"])) fresh_world in
  made_dirs (exec (main [lit "RedRec"; lit "bash"]) w)
  = [lit "/home/user/workspace/beta"] /\
  store (exec (main [lit "RedRec"; lit "bash"]) w) = store w /\
  made_dirs (exec (main [lit "RedRec"; lit "bash"]) fresh_world)
  = [lit "/home/user/workspace/currentoperation"] /\
  store (exec (main [lit "RedRec"; lit "bash"]) fresh_world)
  = File (registry_text [lit "currentoperation"]).
Proof. repeat split. Qed.

(** C9: when the command line asks for a selection and the registry is
    empty, [main] exits with the message of failure and status 1; nothing
    was written, no key was read and the terminal attributes were never
    touched, so the selector was not entered. *)
Theorem empty_selection_fails (script command flag : str) (more : list str)
    (w : world) :
  mem command [lit "-h"; lit "--help"] = false ->
  mem flag [lit "-s"; lit "--select"] = true ->
  eval read_operations w = Ret [] ->
  let w' := exec (main (script :: command :: flag :: more)) w in
  eval (main (script :: command :: flag :: more)) w
  = SysExit (ExitStr (lit "No previous operations found.")) /\
  exit_status (ExitStr (lit "No previous operations found.")) = 1 /\
  tty_calls w' = tty_calls w /\
  tty w' = tty w /\
  stdin w' = stdin w /\
  stdout w' = stdout w /\
  recordings w' = recordings w.
Proof.
  intros Hc Hf Hr w'.
  destruct (read_operations_run w) as (l & E1 & _).
  assert (l = []) by (unfold eval in Hr; rewrite E1 in Hr; now injection Hr).
  subst l.
  assert (E : main (script :: command :: flag :: more) w
              = (SysExit (ExitStr (lit "No previous operations found.")),
                 exec get_operations_file w)).
  { unfold main, argv_at; simpl nth; simpl length.
    change ((S (S (S (length more))) <? 2)%nat) with false.
    change ((2 <? S (S (S (length more))))%nat) with true.
    rewrite Hc, Hf; simpl orb; cbv iota.
    run_ret; cbv beta.
    apply bind_exit.
    rewrite (bind_ret _ _ _ _ _ E1); reflexivity. }
  subst w'; unfold eval, exec at 1 2 3 4 5; rewrite E; simpl fst; simpl snd.
  destruct (get_operations_file_frame w) as (T & TC & SI & SO & _ & RC).
  repeat split; assumption.
Qed.

Lemma empty_selection_fails_witness :
  eval (main [lit "RedRec"; lit "bash"; lit "-s"]) fresh_world
  = SysExit (ExitStr (lit "No previous operations found.")).
Proof.
  refine (proj1 (empty_selection_fails (lit "RedRec") (lit "bash") (lit "-s") []
                   fresh_world _ _ _)); reflexivity.
Defined.

(** * More of the code *)

(** ** The registry, whatever the file holds *)

Lemma no_linebreak_rev (l : str) : no_linebreak (rev l) = no_linebreak l.
Proof.
  unfold no_linebreak; induction l as [|c l IH]; simpl; [reflexivity|].
  rewrite forallb_app, IH; simpl; rewrite andb_true_r; apply andb_comm.
Qed.

Lemma splitlines_from_single_line (n : nat) (s line : str) :
  (length s <= n)%nat -> no_linebreak line = true ->
  Forall (fun l => no_linebreak l = true) (splitlines_from line s).
Proof.
  revert s line; induction n as [|n IH]; intros s line Hn Hl.
  - destruct s; [|simpl in Hn; lia]; simpl.
    destruct line; constructor; [now rewrite no_linebreak_rev | constructor].
  - destruct s as [|c s]; simpl.
    + destruct line; constructor; [now rewrite no_linebreak_rev | constructor].
    + simpl in Hn; destruct (is_linebreak c) eqn:Ec.
      * constructor; [now rewrite no_linebreak_rev|].
        destruct (N.eqb c CR); [|apply IH; [lia | reflexivity]].
        destruct s as [|d s]; [apply IH; [simpl; lia | reflexivity]|].
        simpl in Hn; destruct (N.eqb d LF); apply IH; simpl; try lia; reflexivity.
      * apply IH; [lia|]; simpl; now rewrite Ec.
Qed.

(** X1: every entry [read_operations] returns is one line: it holds none of
    the characters lines are split at, whatever text the file holds. *)
Theorem read_operations_single_lines (w : world) :
  exists names,
    eval read_operations w = Ret names /\
    Forall (fun n => no_linebreak n = true) names.
Proof.
  destruct w as [st t tc si so a n r md rc]; destruct st.
  - exists []; split; [reflexivity | constructor].
  - exists []; split; [reflexivity | constructor].
  - exists (splitlines (universal_newlines content)); split; [reflexivity|].
    apply (splitlines_from_single_line _ _ [] (Nat.le_refl _) eq_refl).
Qed.

(** X2: [read_operations] is a pure read: it makes the missing directory
    and changes nothing else of the world, the file least of all, and asked
    again it gives the same list. *)
Theorem read_operations_read_only (w : world) :
  let w' := exec read_operations w in
  store w' = match store w with NoWorkspace => NoFile | s => s end /\
  content_of w' = content_of w /\
  tty w' = tty w /\ tty_calls w' = tty_calls w /\
  stdin w' = stdin w /\ stdout w' = stdout w /\
  made_dirs w' = made_dirs w /\ recordings w' = recordings w /\
  eval read_operations w' = eval read_operations w.
Proof.
  destruct w as [st t tc si so a n r md rc]; destruct st; repeat split.
Qed.

Lemma save_operation_run (x : str) (w : world) :
  exists names,
    eval read_operations w = Ret names /\
    save_operation x w
    = if mem x names then (Ret tt, exec get_operations_file w)
      else if encodable x
      then (Ret tt, set_store (File (content_of w ++ (x ++ [LF]))) w)
      else (Raise UnicodeEncodeError, set_store (File (content_of w)) w).
Proof.
  destruct w as [st t tc si so a n r md rc]; destruct st.
  - exists []; split; [reflexivity|].
    unfold save_operation, read_operations, get_operations_file,
      append_operations_file, open_append, file_write, bind, modify, get, ret, raise;
      simpl; rewrite encodable_line; destruct (encodable x); reflexivity.
  - exists []; split; [reflexivity|].
    unfold save_operation, read_operations, get_operations_file,
      append_operations_file, open_append, file_write, bind, modify, get, ret, raise;
      simpl; rewrite encodable_line; destruct (encodable x); reflexivity.
  - exists (splitlines (universal_newlines content)); split; [reflexivity|].
    unfold save_operation, read_operations, get_operations_file,
      append_operations_file, open_append, file_write, bind, modify, get, ret, raise;
      simpl.
    destruct (mem x (splitlines (universal_newlines content))); [reflexivity|].
    simpl; rewrite encodable_line; destruct (encodable x); reflexivity.
Qed.

(** What [save_operation] does to the file, and what it leaves. *)
Lemma save_operation_frame (x : str) (w : world) :
  let w' := exec (save_operation x) w in
  (exists names,
     eval read_operations w = Ret names /\
     eval (save_operation x) w
     = (if mem x names || encodable x then Ret tt else Raise UnicodeEncodeError) /\
     content_of w'
     = content_of w
         ++ (if mem x names then [] else if encodable x then x ++ [LF] else [])) /\
  stdout w' = stdout w /\
  made_dirs w' = made_dirs w /\ recordings w' = recordings w.
Proof.
  destruct (save_operation_run x w) as (names & Hr & Hs).
  unfold eval at 2, exec; rewrite Hs; split.
  - exists names; split; [exact Hr|].
    destruct (mem x names); [|destruct (encodable x)]; simpl;
      (split; [reflexivity|]); rewrite ?app_nil_r; try reflexivity.
    destruct w as [st t tc si so a n r md rc]; destruct st; reflexivity.
  - destruct (mem x names); [|destruct (encodable x); repeat split].
    destruct w as [st t tc si so a n r md rc]; destruct st; repeat split.
Qed.

(** X3: [save_operation] only ever appends.  For every name and every file,
    the text of the file afterwards is the text before, followed by the name
    and LF when the name is not among the entries read and the encoder takes
    it, and by nothing otherwise.  The call returns normally unless the name
    is new and the encoder refuses it: then it ends with
    [UnicodeEncodeError], and the file, made if it was missing, has its old
    text.  Nothing but the registry is touched. *)
Theorem save_operation_appends (x : str) (w : world) :
  let w' := exec (save_operation x) w in
  (exists names,
     eval read_operations w = Ret names /\
     eval (save_operation x) w
     = (if mem x names || encodable x then Ret tt else Raise UnicodeEncodeError) /\
     content_of w'
     = content_of w
         ++ (if mem x names then [] else if encodable x then x ++ [LF] else []) /\
     (mem x names = false -> store w' = File (content_of w'))) /\
  tty w' = tty w /\ tty_calls w' = tty_calls w /\
  stdin w' = stdin w /\ stdout w' = stdout w /\
  made_dirs w' = made_dirs w /\ recordings w' = recordings w.
Proof.
  destruct (save_operation_frame x w) as ((names & Hr & He & Hc) & Ho & Hd & Hrc).
  destruct (save_operation_run x w) as (l & Hl & Hs).
  assert (l = names) by congruence; subst l; clear Hl.
  assert (Ht : tty (exec (save_operation x) w) = tty w /\
               tty_calls (exec (save_operation x) w) = tty_calls w /\
               stdin (exec (save_operation x) w) = stdin w /\
               (mem x names = false ->
                store (exec (save_operation x) w)
                = File (content_of (exec (save_operation x) w)))).
  { unfold exec; rewrite Hs.
    destruct (mem x names); [|destruct (encodable x); repeat split].
    destruct w as [st t tc si so a n r md rc]; destruct st; repeat split;
      discriminate. }
  destruct Ht as (Ht & Htc & Hsi & Hf).
  split; [exists names|]; repeat split; assumption.
Qed.

Lemma save_operation_appends_witness :
  store (exec (save_operation (lit "op" ++ [56448%N])) fresh_world)
  = File (content_of (exec (save_operation (lit "op" ++ [56448%N])) fresh_world)).
Proof.
  destruct (save_operation_appends (lit "op" ++ [56448%N]) fresh_world)
    as ((names & Hr & _ & _ & Hf) & _).
  apply Hf; injection Hr as <-; reflexivity.
Defined.

(** A name with a byte that is not UTF-8 in it, as [sys.argv] gives it: the
    append raises and leaves an empty file. *)
Example save_operation_surrogate :
  save_operation (lit "op" ++ [56448%N]) fresh_world
  = (Raise UnicodeEncodeError, set_store (File []) fresh_world).
Proof. reflexivity. Qed.

Lemma universal_newlines_at_LF (n : nat) (a : str) :
  (length a <= n)%nat ->
  exists u, no_CR u = true /\
    forall t, universal_newlines (a ++ LF :: t) = u ++ LF :: universal_newlines t.
Proof.
  revert a; induction n as [|n IH]; intros a Hn.
  - destruct a; [|simpl in Hn; lia].
    exists []; split; reflexivity.
  - destruct a as [|c a]; [exists []; split; reflexivity|].
    simpl in Hn; destruct (N.eqb c CR) eqn:Ec.
    + destruct a as [|d a].
      * exists []; split; [reflexivity|].
        intros t; simpl; now rewrite Ec.
      * simpl in Hn; destruct (N.eqb d LF) eqn:Ed.
        -- destruct (IH a ltac:(lia)) as (u & Hu & E).
           exists (LF :: u); split; [exact Hu|].
           intros t; simpl; now rewrite Ec, Ed, E.
        -- destruct (IH (d :: a) ltac:(simpl; lia)) as (u & Hu & E).
           exists (LF :: u); split; [exact Hu|].
           intros t; simpl app; simpl universal_newlines at 1.
           rewrite Ec, Ed; now rewrite <- E.
    + destruct (IH a ltac:(lia)) as (u & Hu & E).
      exists (c :: u); split; [simpl; now rewrite Ec|].
      intros t; simpl; now rewrite Ec, E.
Qed.

Lemma splitlines_from_at_LF (u line t : str) :
  no_CR u = true ->
  splitlines_from line (u ++ LF :: t)
  = splitlines_from line (u ++ [LF]) ++ splitlines_from [] t.
Proof.
  revert line; induction u as [|c u IH]; intros line Hu; [reflexivity|].
  simpl in Hu; apply andb_true_iff in Hu as [Hc Hu]; apply negb_true_iff in Hc.
  simpl; rewrite Hc; destruct (is_linebreak c).
  - now rewrite IH.
  - now apply IH.
Qed.

(** Reading a text that ends a line, with one more line after it. *)
Lemma read_text_append (content x : str) :
  no_linebreak x = true ->
  content = [] \/ (exists a, content = a ++ [LF]) ->
  splitlines (universal_newlines (content ++ (x ++ [LF])))
  = splitlines (universal_newlines content) ++ [x].
Proof.
  intros Hx Hc; unfold splitlines.
  assert (Ex : forall line, splitlines_from line (universal_newlines (x ++ [LF]))
                            = [rev (rev x ++ line)]).
  { intros line; rewrite (universal_newlines_line x [] Hx).
    change (universal_newlines []) with (@nil char).
    now rewrite (splitlines_from_line x line [] Hx). }
  destruct Hc as [->|(a & ->)].
  - simpl app; rewrite Ex, app_nil_r, rev_involutive; reflexivity.
  - destruct (universal_newlines_at_LF _ a (Nat.le_refl _)) as (u & Hu & E).
    rewrite <- app_assoc; simpl app.
    rewrite (E (x ++ [LF])), (E []).
    rewrite (splitlines_from_at_LF u [] _ Hu), Ex.
    now rewrite app_nil_r, rev_involutive.
Qed.

(** The registry read after an append to a closed file. *)
Lemma save_operation_reads (x : str) (w : world) :
  storable x = true ->
  terminated w ->
  exists names,
    eval read_operations w = Ret names /\
    eval (save_operation x ;; read_operations) w
    = Ret (if mem x names then names else names ++ [x]).
Proof.
  intros Hx Ht; apply storable_parts in Hx as [Hx Hen].
  destruct (save_operation_run x w) as (names & Hr & Hs).
  rewrite Hen in Hs.
  exists names; split; [exact Hr|].
  assert (He : eval (save_operation x) w = Ret tt).
  { unfold eval; rewrite Hs; now destruct (mem x names). }
  rewrite (eval_seq _ _ _ _ He); unfold exec; rewrite Hs.
  destruct (mem x names); simpl snd.
  - destruct (read_operations_run w) as (l & E1 & E2).
    unfold eval in *; rewrite E1 in Hr; rewrite E2; exact Hr.
  - unfold terminated in Ht.
    assert (Hn : names = splitlines (universal_newlines (content_of w))).
    { revert Hr; unfold eval, content_of.
      destruct w as [st t tc si so a n r md rc]; destruct st; simpl;
        intros H; now injection H. }
    rewrite Hn, <- (read_text_append _ _ Hx Ht); reflexivity.
Qed.

(** X4: on a registry file that is missing, empty or closed by LF, however
    it was written, appending a name that holds no line boundary and that
    the encoder takes makes it an entry: a name already read is left where
    it is, a new one becomes the last entry after all the old ones, and the
    file is again closed by LF. *)
Theorem save_operation_terminated (x : str) (w : world) :
  storable x = true ->
  terminated w ->
  exists names,
    eval read_operations w = Ret names /\
    eval (save_operation x ;; read_operations) w
    = Ret (if mem x names then names else names ++ [x]) /\
    terminated (exec (save_operation x) w).
Proof.
  intros Hx Ht.
  destruct (save_operation_reads x w Hx Ht) as (names & Hr & Hsr).
  exists names; split; [exact Hr|]; split; [exact Hsr|].
  destruct (save_operation_run x w) as (l & _ & Hs).
  rewrite (proj2 (storable_parts x Hx)) in Hs.
  unfold exec; rewrite Hs.
  destruct (mem x l); simpl snd.
  - revert Ht; unfold terminated, content_of.
    destruct w as [st t tc si so a n r md rc]; destruct st; simpl; auto.
  - right; exists (content_of w ++ x); unfold content_of at 1; simpl.
    now rewrite <- app_assoc.
Qed.

Lemma save_operation_terminated_witness :
  exists names,
    eval read_operations
         (set_store (File (lit "a" ++ [CR; LF] ++ lit "b" ++ [LF])) fresh_world)
    = Ret names /\
    eval (save_operation (lit "c") ;; read_operations)
         (set_store (File (lit "a" ++ [CR; LF] ++ lit "b" ++ [LF])) fresh_world)
    = Ret (if mem (lit "c") names then names else names ++ [lit "c"]) /\
    terminated (exec (save_operation (lit "c"))
                  (set_store (File (lit "a" ++ [CR; LF] ++ lit "b" ++ [LF]))
                     fresh_world)).
Proof.
  apply (save_operation_terminated (lit "c")
           (set_store (File (lit "a" ++ [CR; LF] ++ lit "b" ++ [LF])) fresh_world)).
  - reflexivity.
  - right; exists (lit "a" ++ [CR; LF] ++ lit "b"); reflexivity.
Defined.

(** On a file whose last line is not closed the new name is joined to that
    line, and is not an entry afterwards. *)
Example save_operation_unterminated :
  eval (save_operation (lit "d") ;; read_operations)
       (set_store (File (lit "abc")) fresh_world)
  = Ret [lit "abcd"].
Proof. reflexivity. Qed.

Lemma save_all_reads_back (names l0 : list str) (w : world) :
  holds l0 w ->
  Forall (fun n => storable n = true) names ->
  NoDup (l0 ++ names) ->
  eval (save_all names) w = Ret tt /\ holds (l0 ++ names) (exec (save_all names) w).
Proof.
  intros Hw Hn; revert l0 w Hw.
  induction Hn as [|n names Hn _ IH]; intros l0 w Hw Hd; simpl.
  - rewrite app_nil_r; split; [reflexivity | exact Hw].
  - destruct (save_operation_holds _ _ _ Hw Hn) as [He Hh].
    assert (Hnew : mem n l0 = false).
    { apply mem_not_In; intros Hin.
      apply NoDup_remove_2 in Hd; apply Hd, in_or_app; now left. }
    rewrite Hnew in Hh.
    rewrite (eval_seq _ _ _ _ He), (exec_seq _ _ _ _ He).
    replace (l0 ++ n :: names) with ((l0 ++ [n]) ++ names) in *
      by (now rewrite <- app_assoc).
    apply (IH _ _ Hh Hd).
Qed.

(** X5: appending, from an empty registry, any number of names that hold no
    line boundary, that the encoder takes and that are all different, and
    reading: the list read is the list appended, in its order. *)
Theorem save_all_order (names : list str) (w : world) :
  eval read_operations w = Ret [] ->
  Forall (fun n => storable n = true) names ->
  NoDup names ->
  eval (save_all names ;; read_operations) w = Ret names.
Proof.
  intros Hw Hn Hd; apply read_operations_empty in Hw.
  destruct (save_all_reads_back names [] w Hw Hn Hd) as [He Hh].
  rewrite (eval_seq _ _ _ _ He); apply (read_operations_holds _ _ Hh).
Qed.

Lemma save_all_order_witness :
  eval (save_all [lit "d"; lit "a"; lit "c"; lit "b"] ;; read_operations) fresh_world
  = Ret [lit "d"; lit "a"; lit "c"; lit "b"].
Proof.
  apply (save_all_order [lit "d"; lit "a"; lit "c"; lit "b"] fresh_world).
  - reflexivity.
  - repeat constructor.
  - repeat constructor; simpl; intuition discriminate.
Defined.

(** ** The selector, run as a whole *)

Lemma raw_reads_app (t : termios) (a b : nat) :
  raw_reads t (a + b) = raw_reads t a ++ raw_reads t b.
Proof. induction a as [|a IH]; simpl; [reflexivity | now rewrite IH]. Qed.

Lemma tty_calls_key_read (rest : list char) (w : world) :
  tty_calls (key_read rest w) = tty_calls w ++ raw_reads (tty w) 1.
Proof. unfold key_read; simpl; now rewrite <- app_assoc. Qed.

Lemma tty_calls_escape_read (k1 k2 : char) (rest : list char) (w : world) :
  tty_calls (escape_read k1 k2 rest w) = tty_calls w ++ raw_reads (tty w) 3.
Proof. unfold escape_read, key_read; simpl; now rewrite <- !app_assoc. Qed.

Lemma escape_control_on_candidate (operations : list str) (selected_index : Z)
    (k1 k2 : char) :
  on_candidate operations selected_index ->
  exists i, escape_control operations selected_index k1 k2 = Ret (Continue i) /\
            on_candidate operations i.
Proof.
  unfold on_candidate; intros Hr.
  assert (Hne : operations <> []) by (destruct operations; [simpl in Hr; lia | discriminate]).
  rewrite (escape_control_keys _ _ _ _ Hne).
  eexists; split; [reflexivity|].
  destruct (N.eqb k1 91 && N.eqb k2 65); [apply Z.mod_pos_bound; lia|].
  destruct (N.eqb k1 91 && N.eqb k2 66); [apply Z.mod_pos_bound; lia | exact Hr].
Qed.

(** One key, with the cursor on a candidate: what is read, written and
    logged, and how the turn ends. *)
Lemma handle_key_turn (operations : list str) (selected_index : Z) (w : world) :
  on_candidate operations selected_index ->
  let r := fst (handle_key operations selected_index w) in
  let w' := snd (handle_key operations selected_index w) in
  exists used,
    stdin w = used ++ stdin w' /\
    same_files w w' /\
    stdout w' = stdout w ++ match r with
                            | Ret (Return _) => erase_text (S (length operations))
                            | _ => []
                            end /\
    match r with
    | Ret (Continue i) =>
        on_candidate operations i /\ used <> [] /\
        tty w' = tty w /\
        tty_calls w' = tty_calls w ++ raw_reads (tty w) (length used)
    | Ret (Return v) =>
        nth_error operations (Z.to_nat selected_index) = Some v /\
        tty w' = tty w /\
        tty_calls w' = tty_calls w ++ raw_reads (tty w) (length used)
    | SysExit arg =>
        arg = ExitInt 0 /\
        tty w' = tty w /\
        tty_calls w' = tty_calls w ++ raw_reads (tty w) (length used)
    | Blocked =>
        stdin w' = [] /\ tty w' = raw_mode /\
        tty_calls w' = tty_calls w ++ raw_reads (tty w) (length used) ++ [SetRaw]
    | Raise _ | OutOfFuel => False
    end.
Proof.
  intros Hr; unfold same_files.
  destruct (stdin w) as [|c rest] eqn:H.
  { rewrite (handle_key_blocked _ _ _ H); simpl.
    exists []; rewrite H, !app_nil_r; repeat split. }
  destruct (N.eq_dec c ESC) as [->|H1].
  { destruct rest as [|k1 [|k2 rest]].
    - rewrite (handle_key_escape_1 _ _ _ H); simpl.
      exists [ESC]; rewrite !app_nil_r, <- !app_assoc; repeat split.
    - rewrite (handle_key_escape_2 _ _ _ _ H); simpl.
      exists [ESC; k1]; rewrite !app_nil_r, <- !app_assoc; repeat split.
    - rewrite (handle_key_escape _ _ _ _ _ _ H); simpl fst; simpl snd.
      destruct (escape_control_on_candidate _ _ k1 k2 Hr) as (i & -> & Hi).
      exists [ESC; k1; k2]; rewrite tty_calls_escape_read, app_nil_r.
      repeat split; solve [apply Hi | discriminate]. }
  destruct (N.eq_dec c LF) as [->|H2];
    [|destruct (N.eq_dec c CR) as [->|H3]].
  1, 2: rewrite (handle_key_enter _ _ _ _ _ H) by auto; simpl fst; simpl snd;
    rewrite (index_in_range _ _ Hr);
    destruct (nth_error operations (Z.to_nat selected_index)) as [v|] eqn:En;
    [|exfalso; apply nth_error_None in En; unfold on_candidate in Hr; lia];
    eexists [_];
    replace (Z.to_nat (Z.of_nat (length operations) + 1))
      with (S (length operations)) by lia;
    change (tty_calls (wrote ?s (key_read rest w)))
      with (tty_calls (key_read rest w));
    rewrite tty_calls_key_read; repeat split.
  destruct (N.eq_dec c ETX) as [->|H4].
  { rewrite (handle_key_cancel _ _ _ _ H); simpl fst; simpl snd.
    exists [ETX]; rewrite tty_calls_key_read, app_nil_r; repeat split. }
  rewrite (handle_key_other _ _ _ _ _ H) by assumption; simpl fst; simpl snd.
  exists [c]; rewrite tty_calls_key_read, app_nil_r.
  repeat split; solve [apply Hr | discriminate].
Qed.

Lemma last_cons {A} (a d : A) (l : list A) : last (a :: l) d = last l a.
Proof.
  revert a d; induction l as [|b l IH]; intros a d; [reflexivity|].
  change (last (a :: b :: l) d) with (last (b :: l) d).
  now rewrite (IH b d), (IH b a).
Qed.

Lemma same_files_trans (w1 w2 w3 : world) :
  same_files w1 w2 -> same_files w2 w3 -> same_files w1 w3.
Proof.
  unfold same_files; intros (A1 & A2 & A3 & A4 & A5 & A6) (B1 & B2 & B3 & B4 & B5 & B6).
  repeat split; congruence.
Qed.

(** The loop from a cursor on a candidate, with fuel for more turns than
    there are keys.  [cursors] are the cursors of the turns after the first,
    [used] the keys read. *)
Lemma select_loop_run (fuel : nat) (operations : list str)
    (selected_index : Z) (w : world) :
  (length (stdin w) < fuel)%nat ->
  on_candidate operations selected_index ->
  let r := fst (select_loop fuel operations selected_index w) in
  let w' := snd (select_loop fuel operations selected_index w) in
  exists cursors used,
    Forall (on_candidate operations) cursors /\
    stdin w = used ++ stdin w' /\
    same_files w w' /\
    stdout w' = stdout w
                  ++ concat (map (render_text operations) (selected_index :: cursors))
                  ++ match r with
                     | Ret _ => erase_text (S (length operations))
                     | _ => []
                     end /\
    match r with
    | Ret v =>
        nth_error operations (Z.to_nat (last cursors selected_index)) = Some v /\
        tty w' = tty w /\
        tty_calls w' = tty_calls w ++ raw_reads (tty w) (length used)
    | SysExit arg =>
        arg = ExitInt 0 /\
        tty w' = tty w /\
        tty_calls w' = tty_calls w ++ raw_reads (tty w) (length used)
    | Blocked =>
        stdin w' = [] /\ tty w' = raw_mode /\
        tty_calls w' = tty_calls w ++ raw_reads (tty w) (length used) ++ [SetRaw]
    | Raise _ | OutOfFuel => False
    end.
Proof.
  revert selected_index w; induction fuel as [|fuel IH];
    intros selected_index w Hf Hr; [lia|].
  cbv zeta; rewrite select_loop_S.
  set (w1 := wrote (render_text operations selected_index) w).
  destruct (handle_key_turn operations selected_index w1 Hr) as (used1 & Hs & Hff & Ho & Hm).
  destruct (handle_key operations selected_index w1) as [r w2].
  simpl fst in *; simpl snd in *.
  change (stdin w1) with (stdin w) in Hs.
  change (tty w1) with (tty w) in Hm.
  change (tty_calls w1) with (tty_calls w) in Hm.
  change (stdout w1) with (stdout w ++ render_text operations selected_index) in Ho.
  assert (Hff' : same_files w w2) by exact Hff.
  clear Hff; destruct r as [[i|v]| | | |]; try contradiction.
  - destruct Hm as (Hi & Hne & Ht & Htc).
    assert (Hf' : (length (stdin w2) < fuel)%nat).
    { rewrite Hs, length_app in Hf; destruct used1; [contradiction | simpl in Hf; lia]. }
    destruct (IH i w2 Hf' Hi) as (cursors & used & Hc & Hs' & Hff & Ho' & Hm').
    exists (i :: cursors), (used1 ++ used).
    split; [constructor; assumption|].
    split; [now rewrite <- app_assoc, <- Hs'|].
    split; [exact (same_files_trans _ _ _ Hff' Hff)|].
    split.
    { rewrite Ho', Ho, app_nil_r; cbn [map concat].
      now rewrite <- !app_assoc. }
    rewrite last_cons, length_app, raw_reads_app.
    destruct (fst (select_loop fuel operations i w2)); try contradiction.
    + destruct Hm' as (A & B & C); rewrite B, C, Ht, Htc, <- !app_assoc; auto.
    + destruct Hm' as (A & B & C); rewrite B, C, Ht, Htc, <- !app_assoc; auto.
    + destruct Hm' as (A & B & C); rewrite B, C, Ht, Htc, <- !app_assoc; auto.
  - destruct Hm as (Hv & Ht & Htc).
    exists [], used1; split; [constructor|].
    simpl fst; simpl snd; repeat split; try assumption; try apply Hff'.
    rewrite Ho; simpl; now rewrite app_nil_r, <- app_assoc.
  - destruct Hm as (Hv & Ht & Htc).
    exists [], used1; split; [constructor|].
    simpl fst; simpl snd; repeat split; try assumption; try apply Hff'.
    rewrite Ho; simpl; now rewrite !app_nil_r.
  - destruct Hm as (Hv & Ht & Htc).
    exists [], used1; split; [constructor|].
    simpl fst; simpl snd; repeat split; try assumption; try apply Hff'.
    rewrite Ho; simpl; now rewrite !app_nil_r.
Qed.

Lemma select_operation_loop (operations : list str) (w : world) :
  select_operation operations w
  = select_loop (S (length (stdin w))) operations 0 (wrote heading w).
Proof. reflexivity. Qed.

(** The selector on a list that is not empty: see [select_loop_run]. *)
Lemma select_operation_run (operations : list str) (w : world) :
  operations <> [] ->
  let r := eval (select_operation operations) w in
  let w' := exec (select_operation operations) w in
  exists cursors used,
    Forall (on_candidate operations) cursors /\
    stdin w = used ++ stdin w' /\
    same_files w w' /\
    stdout w' = stdout w ++ heading
                  ++ concat (map (render_text operations) (0 :: cursors))
                  ++ match r with
                     | Ret _ => erase_text (S (length operations))
                     | _ => []
                     end /\
    match r with
    | Ret v =>
        nth_error operations (Z.to_nat (last cursors 0)) = Some v /\
        tty w' = tty w /\
        tty_calls w' = tty_calls w ++ raw_reads (tty w) (length used)
    | SysExit arg =>
        arg = ExitInt 0 /\
        tty w' = tty w /\
        tty_calls w' = tty_calls w ++ raw_reads (tty w) (length used)
    | Blocked =>
        stdin w' = [] /\ tty w' = raw_mode /\
        tty_calls w' = tty_calls w ++ raw_reads (tty w) (length used) ++ [SetRaw]
    | Raise _ | OutOfFuel => False
    end.
Proof.
  intros Hne; unfold eval, exec; rewrite select_operation_loop.
  assert (H0 : on_candidate operations 0).
  { unfold on_candidate; destruct operations; [contradiction | simpl; lia]. }
  destruct (select_loop_run (S (length (stdin w))) operations 0 (wrote heading w)
              (Nat.lt_succ_diag_r _) H0)
    as (cursors & used & Hc & Hs & Hf & Ho & Hm).
  exists cursors, used; repeat split; try assumption; try apply Hf.
  rewrite Ho; simpl stdout; now rewrite <- app_assoc.
Qed.

(** X6: on a list that is not empty the selector never raises.  It returns
    one of the candidates, or exits with status 0, or it has read every key
    and waits for the next. *)
Theorem select_operation_outcomes (operations : list str) (w : world) :
  operations <> [] ->
  (exists v, eval (select_operation operations) w = Ret v /\ In v operations) \/
  eval (select_operation operations) w = SysExit (ExitInt 0) \/
  (eval (select_operation operations) w = Blocked /\
   stdin (exec (select_operation operations) w) = []).
Proof.
  intros Hne.
  destruct (select_operation_run operations w Hne) as (cursors & used & _ & _ & _ & _ & Hm).
  destruct (eval (select_operation operations) w) as [v|arg|e| |];
    try contradiction.
  - left; exists v; split; [reflexivity|].
    eapply nth_error_In, (proj1 Hm).
  - right; left; now rewrite (proj1 Hm).
  - right; right; split; [reflexivity | apply Hm].
Qed.

Lemma select_operation_outcomes_witness :
  (exists v, eval (select_operation [lit "alpha"; lit "beta"])
                  (set_stdin (key_up ++ [113%N; LF]) fresh_world) = Ret v /\
             In v [lit "alpha"; lit "beta"]) \/
  eval (select_operation [lit "alpha"; lit "beta"])
       (set_stdin (key_up ++ [113%N; LF]) fresh_world) = SysExit (ExitInt 0) \/
  (eval (select_operation [lit "alpha"; lit "beta"])
        (set_stdin (key_up ++ [113%N; LF]) fresh_world) = Blocked /\
   stdin (exec (select_operation [lit "alpha"; lit "beta"])
            (set_stdin (key_up ++ [113%N; LF]) fresh_world)) = []).
Proof.
  apply (select_operation_outcomes [lit "alpha"; lit "beta"]
           (set_stdin (key_up ++ [113%N; LF]) fresh_world)).
  discriminate.
Defined.

(** X7: the selector reads the keys in order from the front of the input and
    leaves the rest; raw mode is entered once for each key read and left
    each time with the attributes found at the start; when the selector
    returns or exits the terminal has these attributes, and only while it
    waits for a key is the terminal in raw mode. *)
Theorem select_operation_terminal (operations : list str) (w : world) :
  operations <> [] ->
  let w' := exec (select_operation operations) w in
  exists used,
    stdin w = used ++ stdin w' /\
    if match eval (select_operation operations) w with
       | Blocked => true
       | _ => false
       end
    then tty w' = raw_mode /\
         tty_calls w' = tty_calls w ++ raw_reads (tty w) (length used) ++ [SetRaw]
    else tty w' = tty w /\
         tty_calls w' = tty_calls w ++ raw_reads (tty w) (length used).
Proof.
  intros Hne.
  destruct (select_operation_run operations w Hne) as (cursors & used & _ & Hs & _ & _ & Hm).
  exists used; split; [exact Hs|].
  destruct (eval (select_operation operations) w) as [v|arg|e| |];
    try contradiction; apply Hm.
Qed.

Lemma select_operation_terminal_witness :
  exists used,
    stdin (set_stdin (key_down ++ [CR; 120%N]) fresh_world)
    = used ++ stdin (exec (select_operation [lit "alpha"; lit "beta"])
                       (set_stdin (key_down ++ [CR; 120%N]) fresh_world)) /\
    if match eval (select_operation [lit "alpha"; lit "beta"])
                  (set_stdin (key_down ++ [CR; 120%N]) fresh_world) with
       | Blocked => true
       | _ => false
       end
    then tty (exec (select_operation [lit "alpha"; lit "beta"])
                (set_stdin (key_down ++ [CR; 120%N]) fresh_world)) = raw_mode /\
         tty_calls (exec (select_operation [lit "alpha"; lit "beta"])
                      (set_stdin (key_down ++ [CR; 120%N]) fresh_world))
         = tty_calls (set_stdin (key_down ++ [CR; 120%N]) fresh_world)
             ++ raw_reads (tty (set_stdin (key_down ++ [CR; 120%N]) fresh_world))
                  (length used) ++ [SetRaw]
    else tty (exec (select_operation [lit "alpha"; lit "beta"])
                (set_stdin (key_down ++ [CR; 120%N]) fresh_world))
         = tty (set_stdin (key_down ++ [CR; 120%N]) fresh_world) /\
         tty_calls (exec (select_operation [lit "alpha"; lit "beta"])
                      (set_stdin (key_down ++ [CR; 120%N]) fresh_world))
         = tty_calls (set_stdin (key_down ++ [CR; 120%N]) fresh_world)
             ++ raw_reads (tty (set_stdin (key_down ++ [CR; 120%N]) fresh_world))
                  (length used).
Proof.
  apply (select_operation_terminal [lit "alpha"; lit "beta"]
           (set_stdin (key_down ++ [CR; 120%N]) fresh_world)).
  discriminate.
Defined.

(** X8: what the selector writes, on a list of [n > 0] candidates: the
    heading, then one menu for each turn, each the erase of [n] lines and
    the [n] candidates with the marker on a cursor in range, the first on
    cursor 0; after that the erase of [n + 1] lines when it returns, and
    nothing when it exits or waits.  The entry returned is the one marked in
    the last menu. *)
Theorem select_operation_output (operations : list str) (w : world) :
  operations <> [] ->
  exists cursors,
    Forall (on_candidate operations) cursors /\
    stdout (exec (select_operation operations) w)
    = stdout w ++ heading
        ++ concat (map (render_text operations) (0 :: cursors))
        ++ match eval (select_operation operations) w with
           | Ret _ => erase_text (S (length operations))
           | _ => []
           end /\
    forall v, eval (select_operation operations) w = Ret v ->
              nth_error operations (Z.to_nat (last cursors 0)) = Some v.
Proof.
  intros Hne.
  destruct (select_operation_run operations w Hne) as (cursors & used & Hc & _ & _ & Ho & Hm).
  exists cursors; split; [exact Hc|]; split; [exact Ho|].
  intros v Hv; rewrite Hv in Hm; apply Hm.
Qed.

Lemma select_operation_output_witness :
  exists cursors,
    Forall (on_candidate [lit "alpha"; lit "beta"]) cursors /\
    stdout (exec (select_operation [lit "alpha"; lit "beta"])
              (set_stdin (key_down ++ [CR]) fresh_world))
    = stdout (set_stdin (key_down ++ [CR]) fresh_world) ++ heading
        ++ concat (map (render_text [lit "alpha"; lit "beta"]) (0 :: cursors))
        ++ match eval (select_operation [lit "alpha"; lit "beta"])
                      (set_stdin (key_down ++ [CR]) fresh_world) with
           | Ret _ => erase_text (S (length [lit "alpha"; lit "beta"]))
           | _ => []
           end /\
    forall v, eval (select_operation [lit "alpha"; lit "beta"])
                   (set_stdin (key_down ++ [CR]) fresh_world) = Ret v ->
              nth_error [lit "alpha"; lit "beta"] (Z.to_nat (last cursors 0)) = Some v.
Proof.
  apply (select_operation_output [lit "alpha"; lit "beta"]
           (set_stdin (key_down ++ [CR]) fresh_world)).
  discriminate.
Defined.

(** X9: the selector touches the terminal only: the registry, the
    directories, the recordings and the environment are as before, however
    it ends. *)
Theorem select_operation_same_files (operations : list str) (w : world) :
  operations <> [] ->
  same_files w (exec (select_operation operations) w).
Proof.
  intros Hne.
  destruct (select_operation_run operations w Hne) as (cursors & used & _ & _ & Hf & _).
  exact Hf.
Qed.

Lemma select_operation_same_files_witness :
  same_files (set_stdin [ETX] fresh_world)
    (exec (select_operation [lit "alpha"]) (set_stdin [ETX] fresh_world)).
Proof.
  apply (select_operation_same_files [lit "alpha"] (set_stdin [ETX] fresh_world)).
  discriminate.
Defined.

(** X10: on an empty list the selector cannot return.  The first arrow key
    ends it with [ZeroDivisionError] and Enter with [IndexError], the
    terminal attributes restored; 0x03 still exits with status 0; other keys
    are passed over. *)
Theorem select_operation_empty (rest : list char) (w : world) :
  (forall v, eval (select_operation []) w <> Ret v) /\
  eval (select_operation []) (set_stdin (key_up ++ rest) w) = Raise ZeroDivisionError /\
  eval (select_operation []) (set_stdin (key_down ++ rest) w) = Raise ZeroDivisionError /\
  eval (select_operation []) (set_stdin (LF :: rest) w) = Raise IndexError /\
  eval (select_operation []) (set_stdin (CR :: rest) w) = Raise IndexError /\
  eval (select_operation []) (set_stdin (ETX :: rest) w) = SysExit (ExitInt 0) /\
  eval (select_operation []) (set_stdin (113%N :: key_up ++ rest) w)
  = Raise ZeroDivisionError /\
  tty (exec (select_operation []) (set_stdin (key_up ++ rest) w)) = tty w /\
  tty (exec (select_operation []) (set_stdin (LF :: rest) w)) = tty w.
Proof.
  split; [|repeat split].
  intros v; unfold eval; rewrite select_operation_loop; apply select_loop_nil.
Qed.

Lemma presses_length (key : list char) (k : nat) :
  length (presses key k) = (k * length key)%nat.
Proof. induction k as [|k IH]; simpl; [reflexivity | now rewrite length_app, IH]. Qed.

(** [k] presses of one arrow and Enter, from a cursor on a candidate: the
    loop returns the entry [k] steps on, counted round the list. *)
Lemma select_loop_presses (operations : list str) (k2 : char) (delta : Z)
    (c : char) (rest : list char) :
  (k2 = 65%N /\ delta = -1) \/ (k2 = 66%N /\ delta = 1) ->
  c = LF \/ c = CR ->
  forall (k fuel : nat) (selected_index : Z) (w : world),
    (k < fuel)%nat ->
    on_candidate operations selected_index ->
    stdin w = presses [ESC; 91%N; k2] k ++ c :: rest ->
    exists v,
      nth_error operations
        (Z.to_nat ((selected_index + delta * Z.of_nat k)
                   mod Z.of_nat (length operations))) = Some v /\
      fst (select_loop fuel operations selected_index w) = Ret v.
Proof.
  intros Hk Hc; induction k as [|k IH]; intros fuel selected_index w Hf Hr Hs;
    (destruct fuel as [|fuel]; [lia|]); rewrite select_loop_S.
  - simpl in Hs.
    rewrite (handle_key_enter operations selected_index c rest
               (wrote (render_text operations selected_index) w) Hs Hc).
    rewrite (index_in_range _ _ Hr).
    replace (selected_index + delta * Z.of_nat 0) with selected_index by lia.
    rewrite Z.mod_small by exact Hr.
    destruct (nth_error operations (Z.to_nat selected_index)) as [v|] eqn:En.
    + exists v; split; reflexivity.
    + exfalso; apply nth_error_None in En; unfold on_candidate in Hr; lia.
  - assert (Hne : operations <> []).
    { destruct operations; [unfold on_candidate in Hr; simpl in Hr; lia | discriminate]. }
    assert (Hn : 0 < Z.of_nat (length operations)) by (unfold on_candidate in Hr; lia).
    rewrite (handle_key_escape operations selected_index 91%N k2
               (presses [ESC; 91%N; k2] k ++ c :: rest)
               (wrote (render_text operations selected_index) w) Hs).
    rewrite (escape_control_keys _ _ _ _ Hne).
    set (i := if N.eqb 91 91 && N.eqb k2 65
              then (selected_index - 1) mod Z.of_nat (length operations)
              else if N.eqb 91 91 && N.eqb k2 66
              then (selected_index + 1) mod Z.of_nat (length operations)
              else selected_index).
    assert (Hi : i = (selected_index + delta) mod Z.of_nat (length operations)).
    { subst i; destruct Hk as [[-> ->]|[-> ->]]; reflexivity. }
    assert (Hir : on_candidate operations i).
    { rewrite Hi; apply Z.mod_pos_bound, Hn. }
    destruct (IH fuel i (escape_read 91%N k2 (presses [ESC; 91%N; k2] k ++ c :: rest)
                           (wrote (render_text operations selected_index) w))
                ltac:(lia) Hir eq_refl) as (v & Hv & Hrun).
    exists v; split; [|exact Hrun].
    rewrite <- Hv, Hi, Zplus_mod_idemp_l.
    replace (selected_index + delta + delta * Z.of_nat k)
      with (selected_index + delta * Z.of_nat (S k)) by lia.
    reflexivity.
Qed.

(** X11: on a list of [n > 0] candidates, [k] down arrows and Enter return
    the entry at index [k mod n], and [k] up arrows and Enter the entry at
    index [(- k) mod n]; so [n] presses of either arrow come back to the first
    entry. *)
Theorem select_operation_presses (operations : list str) (k : nat)
    (c : char) (rest : list char) (w : world) :
  operations <> [] ->
  c = LF \/ c = CR ->
  let n := Z.of_nat (length operations) in
  (exists v,
     nth_error operations (Z.to_nat (Z.of_nat k mod n)) = Some v /\
     eval (select_operation operations)
          (set_stdin (presses key_down k ++ c :: rest) w) = Ret v) /\
  (exists v,
     nth_error operations (Z.to_nat ((- Z.of_nat k) mod n)) = Some v /\
     eval (select_operation operations)
          (set_stdin (presses key_up k ++ c :: rest) w) = Ret v) /\
  (exists v,
     nth_error operations 0 = Some v /\
     eval (select_operation operations)
          (set_stdin (presses key_down (length operations) ++ c :: rest) w) = Ret v /\
     eval (select_operation operations)
          (set_stdin (presses key_up (length operations) ++ c :: rest) w) = Ret v).
Proof.
  intros Hne Hc n.
  assert (H0 : on_candidate operations 0).
  { unfold on_candidate; destruct operations; [contradiction | simpl; lia]. }
  assert (Hrun : forall k2 delta j,
            (k2 = 65%N /\ delta = -1) \/ (k2 = 66%N /\ delta = 1) ->
            exists v,
              nth_error operations (Z.to_nat ((delta * Z.of_nat j) mod n)) = Some v /\
              eval (select_operation operations)
                   (set_stdin (presses [ESC; 91%N; k2] j ++ c :: rest) w) = Ret v).
  { intros k2 delta j Hk; unfold eval; rewrite select_operation_loop.
    destruct (select_loop_presses operations k2 delta c rest Hk Hc j
                (S (length (presses [ESC; 91%N; k2] j ++ c :: rest))) 0
                (wrote heading (set_stdin (presses [ESC; 91%N; k2] j ++ c :: rest) w)))
      as (v & Hv & Hr); try assumption; try reflexivity.
    - rewrite length_app, presses_length; simpl; lia.
    - exists v; split; [exact Hv | exact Hr]. }
  split; [|split].
  - destruct (Hrun 66%N 1 k) as (v & Hv & Hr); [now right|].
    replace (1 * Z.of_nat k) with (Z.of_nat k) in Hv by lia.
    exists v; split; assumption.
  - destruct (Hrun 65%N (-1) k) as (v & Hv & Hr); [now left|].
    replace (-1 * Z.of_nat k) with (- Z.of_nat k) in Hv by lia.
    exists v; split; assumption.
  - destruct (Hrun 66%N 1 (length operations)) as (v & Hv & Hr); [now right|].
    destruct (Hrun 65%N (-1) (length operations)) as (u & Hu & Hr'); [now left|].
    fold n in Hv, Hu.
    replace ((1 * n) mod n) with 0 in Hv by (symmetry; apply Z_mod_mult).
    replace ((-1 * n) mod n) with 0 in Hu by (symmetry; apply Z_mod_mult).
    simpl in Hv, Hu; assert (u = v) by congruence; subst u.
    exists v; repeat split; assumption.
Qed.

Lemma select_operation_presses_witness :
  exists v,
    nth_error [lit "a"; lit "b"; lit "c"] (Z.to_nat (Z.of_nat 4 mod 3)) = Some v /\
    eval (select_operation [lit "a"; lit "b"; lit "c"])
         (set_stdin (presses key_down 4 ++ [CR]) fresh_world) = Ret v.
Proof.
  refine (proj1 (select_operation_presses [lit "a"; lit "b"; lit "c"] 4 CR []
                   fresh_world _ _)).
  - discriminate.
  - right; reflexivity.
Defined.

(** ** Recording and the command line, case by case *)

Lemma save_operation_ret (x : str) (w : world) :
  eval (save_operation x) w = Ret tt ->
  save_operation x w = (Ret tt, exec (save_operation x) w).
Proof.
  unfold eval, exec; destruct (save_operation x w) as [r w']; simpl.
  now intros ->.
Qed.

Lemma read_operations_store (w1 w2 : world) :
  store w1 = store w2 -> eval read_operations w1 = eval read_operations w2.
Proof.
  destruct w1 as [st1 t1 tc1 si1 so1 a1 n1 r1 md1 rc1].
  destruct w2 as [st2 t2 tc2 si2 so2 a2 n2 r2 md2 rc2]; simpl; intros ->.
  destruct st2; reflexivity.
Qed.

Lemma plain_name_encodable (x : str) : plain_name x = true -> encodable x = true.
Proof.
  unfold plain_name; intros H.
  now repeat (apply andb_true_iff in H as [H _]).
Qed.

(** The world once the directory is made, the name saved and the recorder
    run, whatever comes of the run. *)
Lemma run_with_asciinema_named (command x : str) (w : world) :
  asciinema w = true ->
  eval (save_operation x) (add_dir (target_dir_of x) w) = Ret tt ->
  run_with_asciinema command (Some x) w
  = let w1 := add_recording (command, recording_file_of x w)
                (exec (save_operation x) (add_dir (target_dir_of x) w)) in
    match recorder w with
    | RecExit returncode =>
        if returncode =? 0
        then (Ret tt,
              wrote ((lit "Recording saved to " ++ recording_file_of x w) ++ [LF]) w1)
        else (SysExit (ExitStr (lit "Error: Command failed with return code "
                                ++ str_of_int returncode)), w1)
    | RecFail text => (SysExit (ExitStr (lit "An error occurred: " ++ text)), w1)
    end.
Proof.
  intros Ha Hs; unfold run_with_asciinema.
  run_ret; cbv beta; rewrite Ha.
  do 4 (run_ret; cbv beta).
  rewrite (bind_ret _ _ _ _ _
             (save_operation_ret x (add_dir (path_join base_dir x) w) Hs)).
  run_ret; cbv beta.
  change (recorder (add_dir (path_join base_dir x) w)) with (recorder w).
  change (now (add_dir (path_join base_dir x) w)) with (now w).
  destruct (recorder w) as [rc|text]; [|reflexivity].
  destruct (rc =? 0); reflexivity.
Qed.

(** The append inside [run_with_asciinema] goes through when the name is an
    entry or the encoder takes it. *)
Lemma run_with_asciinema_saves (x : str) (w : world) (names : list str) :
  eval read_operations w = Ret names ->
  mem x names || encodable x = true ->
  eval (save_operation x) (add_dir (target_dir_of x) w) = Ret tt.
Proof.
  intros Hr Hx.
  destruct (save_operation_frame x (add_dir (target_dir_of x) w))
    as ((l & Hl & He & _) & _).
  rewrite (read_operations_store (add_dir (target_dir_of x) w) w eq_refl), Hr in Hl.
  injection Hl as <-.
  now rewrite He, Hx.
Qed.

(** What [run_with_asciinema] has done by the time the recorder ends, for a
    name that is an entry or that the encoder takes. *)
Lemma run_with_asciinema_changes (command x : str) (w : world) (names : list str) :
  asciinema w = true ->
  eval read_operations w = Ret names ->
  mem x names || encodable x = true ->
  let w' := exec (run_with_asciinema command (Some x)) w in
  made_dirs w' = made_dirs w ++ [target_dir_of x] /\
  recordings w' = recordings w ++ [(command, recording_file_of x w)] /\
  content_of w' = content_of w ++ (if mem x names then [] else x ++ [LF]).
Proof.
  intros Ha Hn Hx w'; subst w'; unfold exec at 1 2 3.
  rewrite (run_with_asciinema_named command x w Ha
             (run_with_asciinema_saves x w names Hn Hx)); cbv zeta.
  set (w0 := add_dir (target_dir_of x) w).
  destruct (save_operation_frame x w0) as ((l & Hl & _ & Hc) & _ & Hd & Hr).
  rewrite (read_operations_store w0 w eq_refl), Hn in Hl; injection Hl as <-.
  assert (Hc' : content_of (exec (save_operation x) w0)
                = content_of w ++ (if mem x names then [] else x ++ [LF])).
  { rewrite Hc; destruct (mem x names); [reflexivity|].
    simpl in Hx; now rewrite Hx. }
  assert (E : forall s,
            made_dirs (add_recording s (exec (save_operation x) w0))
            = made_dirs w ++ [path_join base_dir x] /\
            recordings (add_recording s (exec (save_operation x) w0))
            = recordings w ++ [s] /\
            content_of (add_recording s (exec (save_operation x) w0))
            = content_of w ++ (if mem x names then [] else x ++ [LF])).
  { intros s; unfold content_of in *; simpl.
    rewrite Hd, Hr, Hc'; repeat split. }
  destruct (E (command, recording_file_of x w)) as (A & B & C).
  destruct (recorder w) as [rc|text]; [destruct (rc =? 0)|]; simpl snd;
    (split; [exact A | split; [exact B | exact C]]).
Qed.

(** X12: for a plain name (one that the encoder takes, without NUL or
    slash, of at most 255 bytes, and not [operations]) and with the recorder
    installed: whatever the recorder does afterwards, [run_with_asciinema]
    has by then made the directory of that name under the base directory,
    appended the name to the registry unless it was an entry, and run the
    recorder once, on the command and a session file in that directory. *)
Theorem run_with_asciinema_effects (command x : str) (w : world) :
  asciinema w = true ->
  plain_name x = true ->
  let w' := exec (run_with_asciinema command (Some x)) w in
  made_dirs w' = made_dirs w ++ [path_join base_dir x] /\
  recordings w'
  = recordings w
      ++ [(command,
           path_join (path_join base_dir x)
                     (lit "session_" ++ now w ++ lit ".cast"))] /\
  exists names,
    eval read_operations w = Ret names /\
    content_of w' = content_of w ++ (if mem x names then [] else x ++ [LF]).
Proof.
  intros Ha Hp w'.
  destruct (read_operations_run w) as (names & E1 & _).
  assert (Hn : eval read_operations w = Ret names) by (unfold eval; now rewrite E1).
  assert (Hx : mem x names || encodable x = true).
  { rewrite (plain_name_encodable x Hp); apply orb_true_r. }
  destruct (run_with_asciinema_changes command x w names Ha Hn Hx) as (Hd & Hr & Hc).
  unfold target_dir_of in Hd; unfold recording_file_of, target_dir_of in Hr.
  split; [exact Hd|]; split; [exact Hr|].
  exists names; split; assumption.
Qed.

Lemma run_with_asciinema_effects_witness :
  made_dirs (exec (run_with_asciinema (lit "bash") (Some (lit "op1"))) fresh_world)
  = made_dirs fresh_world ++ [path_join base_dir (lit "op1")].
Proof.
  refine (proj1 (run_with_asciinema_effects (lit "bash") (lit "op1") fresh_world _ _));
    reflexivity.
Defined.

(** A new name that the encoder refuses: the directory is made, the append
    raises, and the recorder is not run. *)
Example run_with_asciinema_surrogate :
  eval (run_with_asciinema (lit "bash") (Some (lit "op" ++ [56448%N]))) fresh_world
  = Raise UnicodeEncodeError /\
  recordings (exec (run_with_asciinema (lit "bash") (Some (lit "op" ++ [56448%N])))
                fresh_world) = [].
Proof. split; reflexivity. Qed.

(** X13: how [run_with_asciinema] ends, for a plain name and with the
    recorder installed.  When the recorder returns 0 it prints where the
    recording was saved and returns; when the recorder returns another code
    it exits with a message that gives the code in decimal, and when the
    call of the recorder raises, with a message that gives the error; both
    exits have status 1, and nothing is printed. *)
Theorem run_with_asciinema_outcome (command x : str) (w : world) :
  asciinema w = true ->
  plain_name x = true ->
  let r := eval (run_with_asciinema command (Some x)) w in
  let w' := exec (run_with_asciinema command (Some x)) w in
  match recorder w with
  | RecExit returncode =>
      if returncode =? 0
      then r = Ret tt /\
           stdout w'
           = stdout w
               ++ (lit "Recording saved to "
                     ++ path_join (path_join base_dir x)
                                  (lit "session_" ++ now w ++ lit ".cast"))
               ++ [LF]
      else r = SysExit (ExitStr (lit "Error: Command failed with return code "
                                 ++ str_of_int returncode)) /\
           stdout w' = stdout w
  | RecFail text =>
      r = SysExit (ExitStr (lit "An error occurred: " ++ text)) /\
      stdout w' = stdout w
  end /\
  (forall arg, r = SysExit arg -> exit_status arg = 1).
Proof.
  intros Ha Hp r w'; subst r w'; unfold eval, exec.
  destruct (read_operations_run w) as (names & E1 & _).
  assert (Hn : eval read_operations w = Ret names) by (unfold eval; now rewrite E1).
  assert (Hx : mem x names || encodable x = true).
  { rewrite (plain_name_encodable x Hp); apply orb_true_r. }
  rewrite (run_with_asciinema_named command x w Ha
             (run_with_asciinema_saves x w names Hn Hx)); cbv zeta.
  set (w0 := add_dir (target_dir_of x) w).
  destruct (save_operation_frame x w0) as (_ & Ho & _ & _).
  change (stdout w0) with (stdout w) in Ho.
  destruct (recorder w) as [rc|text]; [destruct (rc =? 0)|];
    simpl fst; simpl snd; (split; [split; [reflexivity|] |]).
  - unfold wrote; simpl; now rewrite Ho.
  - intros arg H; discriminate H.
  - simpl; exact Ho.
  - intros arg H; injection H as <-; reflexivity.
  - simpl; exact Ho.
  - intros arg H; injection H as <-; reflexivity.
Qed.

Lemma run_with_asciinema_outcome_witness :
  eval (run_with_asciinema (lit "false") (Some (lit "op1")))
       (World NoWorkspace (Termios true true true true true) [] [] [] true
              (lit "20240101_120000") (RecExit (-9)) [] [])
  = SysExit (ExitStr (lit "Error: Command failed with return code -9")).
Proof.
  refine (proj1 (proj1 (run_with_asciinema_outcome (lit "false") (lit "op1")
            (World NoWorkspace (Termios true true true true true) [] [] [] true
                   (lit "20240101_120000") (RecExit (-9)) [] []) _ _)));
    reflexivity.
Defined.

(** [run_with_asciinema] without the recorder. *)
Lemma run_with_asciinema_missing (command : str)
    (operation_name : option str) (w : world) :
  asciinema w = false ->
  run_with_asciinema command operation_name w = (SysExit not_installed, w).
Proof.
  intros Ha.
  unfold run_with_asciinema; run_ret; cbv beta; rewrite Ha.
  now apply bind_exit.
Qed.

(** X14: without the recorder installed [run_with_asciinema] exits at once
    with its message and status 1, with or without a name: the registry is
    not read, the directory is not made, nothing is written or run. *)
Theorem run_with_asciinema_not_installed (command : str)
    (operation_name : option str) (w : world) :
  asciinema w = false ->
  run_with_asciinema command operation_name w = (SysExit not_installed, w) /\
  exit_status not_installed = 1.
Proof.
  intros Ha; split; [|reflexivity].
  unfold run_with_asciinema; run_ret; cbv beta; rewrite Ha.
  apply bind_exit; reflexivity.
Qed.

Lemma run_with_asciinema_not_installed_witness :
  run_with_asciinema (lit "bash") None
    (World NoWorkspace (Termios true true true true true) [] [] [] false
           (lit "20240101_120000") (RecExit 0) [] [])
  = (SysExit not_installed,
     World NoWorkspace (Termios true true true true true) [] [] [] false
           (lit "20240101_120000") (RecExit 0) [] []).
Proof.
  refine (proj1 (run_with_asciinema_not_installed (lit "bash") None
            (World NoWorkspace (Termios true true true true true) [] [] [] false
                   (lit "20240101_120000") (RecExit 0) [] []) _)).
  reflexivity.
Defined.

Lemma bind_assoc {A B C} (m : M A) (k1 : A -> M B) (k2 : B -> M C) (w : world) :
  bind (bind m k1) k2 w = bind m (fun a => bind (k1 a) k2) w.
Proof. unfold bind; destruct (m w) as [[a|arg|e| |] w']; reflexivity. Qed.

Lemma bind_ret_r {A B C} (m : M A) (f : A -> B) (k : B -> M C) (w : world) :
  bind m (fun a => bind (ret (f a)) k) w = bind m (fun a => k (f a)) w.
Proof. unfold bind; destruct (m w) as [[a|arg|e| |] w']; reflexivity. Qed.

(** X15: with fewer than two words on the command line, or with [-h] or
    [--help] as the first argument whatever follows it, [main] prints the
    usage text and exits with status 1; it reads no registry and records
    nothing. *)
Theorem main_usage (argv : list str) (w : world) :
  (length argv < 2)%nat \/ In (argv_at argv 1) [lit "-h"; lit "--help"] ->
  main argv w = (SysExit (ExitInt 1), wrote (usage_text ++ [LF]) w) /\
  exit_status (ExitInt 1) = 1.
Proof.
  intros H; split; [|reflexivity].
  assert (E : (length argv <? 2)%nat
              || mem (argv_at argv 1) [lit "-h"; lit "--help"] = true).
  { apply orb_true_iff; destruct H as [H|H];
      [left; now apply Nat.ltb_lt | right; now apply mem_In]. }
  unfold main; rewrite E.
  apply bind_exit; reflexivity.
Qed.

Lemma main_usage_witness :
  main [lit "RedRec"; lit "--help"; lit "-s"] fresh_world
  = (SysExit (ExitInt 1), wrote (usage_text ++ [LF]) fresh_world).
Proof.
  refine (proj1 (main_usage [lit "RedRec"; lit "--help"; lit "-s"] fresh_world _)).
  right; right; left; reflexivity.
Defined.

(** X16: what [main] makes of the command line when the first argument is
    not a call for help.  Alone, it is the command, recorded under the
    default name; a second argument that is not [-s] or [--select] is the
    name; the name of the script and every argument after the second are
    not looked at. *)
Theorem main_dispatch (script command x : str) (more : list str) (w : world) :
  mem command [lit "-h"; lit "--help"] = false ->
  mem x [lit "-s"; lit "--select"] = false ->
  main [script; command] w = run_with_asciinema command None w /\
  main (script :: command :: x :: more) w = run_with_asciinema command (Some x) w.
Proof.
  intros Hc Hx; unfold main, argv_at; simpl nth; simpl length.
  change ((2 <? 2)%nat) with false.
  change ((S (S (S (length more))) <? 2)%nat) with false.
  change ((2 <? S (S (S (length more))))%nat) with true.
  rewrite Hc, Hx; simpl orb; cbv iota.
  split; do 2 (run_ret; cbv beta); reflexivity.
Qed.

Lemma main_dispatch_witness :
  main [lit "RedRec"; lit "bash"; lit "op1"; lit "ignored"] fresh_world
  = run_with_asciinema (lit "bash") (Some (lit "op1")) fresh_world.
Proof.
  refine (proj2 (main_dispatch (lit "RedRec") (lit "bash") (lit "op1")
                   [lit "ignored"] fresh_world _ _)); reflexivity.
Defined.

(** [main] asked for a selection, with entries in the registry: the selector
    on these entries, then the recording under the entry it returns. *)
Lemma main_select (script command flag : str) (more : list str)
    (names : list str) (w : world) :
  mem command [lit "-h"; lit "--help"] = false ->
  mem flag [lit "-s"; lit "--select"] = true ->
  eval read_operations w = Ret names -> names <> [] ->
  main (script :: command :: flag :: more) w
  = bind (select_operation names)
         (fun v => run_with_asciinema command (Some v))
         (exec get_operations_file w).
Proof.
  intros Hc Hf Hr Hne.
  destruct (read_operations_run w) as (l & E1 & _).
  assert (l = names) by (unfold eval in Hr; rewrite E1 in Hr; now injection Hr).
  subst l.
  unfold main, argv_at; simpl nth; simpl length.
  change ((S (S (S (length more))) <? 2)%nat) with false.
  change ((2 <? S (S (S (length more))))%nat) with true.
  rewrite Hc, Hf; simpl orb; cbv iota.
  run_ret; cbv beta.
  rewrite bind_assoc, (bind_ret _ _ _ _ _ E1).
  destruct names as [|n names]; [contradiction|].
  rewrite bind_assoc; apply bind_ret_r.
Qed.

(** X17: a run of [main] with [-s] or [--select] never changes the text of
    the registry file, however the selection and the recording end: the
    selector only returns entries of the registry, and an entry is not
    appended again. *)
Theorem main_select_keeps_registry (script command flag : str)
    (more : list str) (w : world) :
  mem command [lit "-h"; lit "--help"] = false ->
  mem flag [lit "-s"; lit "--select"] = true ->
  content_of (exec (main (script :: command :: flag :: more)) w) = content_of w.
Proof.
  intros Hc Hf.
  destruct (read_operations_run w) as (names & E1 & _).
  assert (Hr : eval read_operations w = Ret names) by (unfold eval; now rewrite E1).
  assert (Hg : content_of (exec get_operations_file w) = content_of w).
  { destruct w as [st t tc si so a n r md rc]; destruct st; reflexivity. }
  destruct names as [|n0 names0].
  { unfold exec at 1, main, argv_at; simpl nth; simpl length.
    change ((S (S (S (length more))) <? 2)%nat) with false.
    change ((2 <? S (S (S (length more))))%nat) with true.
    rewrite Hc, Hf; simpl orb; cbv iota.
    run_ret; cbv beta.
    rewrite (bind_exit _ _ _ (exec get_operations_file w)
               (ExitStr (lit "No previous operations found.")));
      [exact Hg | now rewrite (bind_ret _ _ _ _ _ E1)]. }
  set (names := n0 :: names0) in *.
  assert (Hne : names <> []) by discriminate.
  unfold exec at 1; rewrite (main_select _ _ _ _ names w Hc Hf Hr Hne).
  set (w1 := exec get_operations_file w) in *.
  destruct (select_operation_run names w1 Hne)
    as (cursors & used & _ & _ & Hsf & _ & Hm).
  unfold eval, exec in Hm, Hsf; unfold bind.
  destruct (select_operation names w1) as [r w2]; simpl fst in *; simpl snd in *.
  assert (Hs : store w2 = store w1) by apply Hsf.
  assert (Hc2 : content_of w2 = content_of w).
  { rewrite <- Hg; unfold content_of; now rewrite Hs. }
  destruct r as [v|arg|e| |]; try exact Hc2.
  destruct (asciinema w2) eqn:Ha.
  - assert (Hin : In v names) by (eapply nth_error_In, (proj1 Hm)).
    assert (Hl : eval read_operations w2 = Ret names).
    { rewrite (read_operations_store w2 w1 Hs).
      unfold w1; destruct (read_operations_run w) as (l' & F1 & F2).
      unfold eval in Hr |- *; rewrite F2; rewrite F1 in Hr; exact Hr. }
    destruct (run_with_asciinema_changes command v w2 names Ha Hl) as (_ & _ & Hcv).
    { now rewrite (proj2 (mem_In _ _) Hin). }
    unfold exec in Hcv; rewrite Hcv, Hc2.
    now rewrite (proj2 (mem_In _ _) Hin), app_nil_r.
  - now rewrite (run_with_asciinema_missing command (Some v) w2 Ha).
Qed.

Lemma main_select_keeps_registry_witness :
  content_of
    (exec (main [lit "RedRec"; lit "bash"; lit "--select"])
       (set_stdin (key_down ++ [CR])
          (set_store (File (registry_text [lit "alpha"; lit "beta"])) fresh_world)))
  = content_of
      (set_stdin (key_down ++ [CR])
         (set_store (File (registry_text [lit "alpha"; lit "beta"])) fresh_world)).
Proof.
  apply (main_select_keeps_registry (lit "RedRec") (lit "bash") (lit "--select") []
           (set_stdin (key_down ++ [CR])
              (set_store (File (registry_text [lit "alpha"; lit "beta"]))
                 fresh_world))); reflexivity.
Defined.

(** X18: the selector comes before the check for the recorder.  Asked for a
    selection with entries in the registry and no recorder installed, [main]
    still shows the menu and reads keys; the exit about the missing recorder
    comes only once an entry has been confirmed, and a cancelled selection
    exits with status 0. *)
Theorem main_select_before_check (script command flag : str)
    (more : list str) (names : list str) (w : world) :
  mem command [lit "-h"; lit "--help"] = false ->
  mem flag [lit "-s"; lit "--select"] = true ->
  eval read_operations w = Ret names -> names <> [] ->
  asciinema w = false ->
  let selection := select_operation names (exec get_operations_file w) in
  main (script :: command :: flag :: more) w
  = (match fst selection with
     | Ret _ => SysExit not_installed
     | SysExit arg => SysExit arg
     | Raise e => Raise e
     | Blocked => Blocked
     | OutOfFuel => OutOfFuel
     end, snd selection) /\
  exists menu, stdout (snd selection) = stdout w ++ heading ++ menu.
Proof.
  intros Hc Hf Hr Hne Ha selection; subst selection.
  rewrite (main_select _ _ _ _ names w Hc Hf Hr Hne).
  set (w1 := exec get_operations_file w).
  destruct (select_operation_run names w1 Hne)
    as (cursors & used & _ & _ & Hsf & Ho & _).
  unfold eval, exec in Ho, Hsf; unfold bind.
  destruct (select_operation names w1) as [r w2]; simpl fst in *; simpl snd in *.
  split.
  - destruct r as [v|arg|e| |]; try reflexivity.
    apply run_with_asciinema_missing.
    destruct Hsf as (_ & _ & _ & Hsa & _); rewrite Hsa.
    unfold w1; destruct w as [st t tc si so a n rr md rc]; destruct st; exact Ha.
  - eexists; rewrite Ho.
    replace (stdout w1) with (stdout w); [reflexivity|].
    unfold w1; destruct w as [st t tc si so a n rr md rc]; destruct st; reflexivity.
Qed.

Lemma main_select_before_check_witness :
  exists menu,
    stdout (snd (select_operation [lit "alpha"]
                   (exec get_operations_file
                      (World (File (registry_text [lit "alpha"]))
                         (Termios true true true true true) [] [CR] [] false
                         (lit "20240101_120000") (RecExit 0) [] []))))
    = stdout (World (File (registry_text [lit "alpha"]))
                (Termios true true true true true) [] [CR] [] false
                (lit "20240101_120000") (RecExit 0) [] [])
        ++ heading ++ menu.
Proof.
  refine (proj2 (main_select_before_check (lit "RedRec") (lit "bash") (lit "-s") []
            [lit "alpha"]
            (World (File (registry_text [lit "alpha"]))
               (Termios true true true true true) [] [CR] [] false
               (lit "20240101_120000") (RecExit 0) [] []) _ _ _ _ _));
    try reflexivity; discriminate.
Defined.

(** Given no name, [run_with_asciinema] goes on as with [name_for] of the
    entries read. *)
Lemma run_with_asciinema_none (command : str) (w : world) (names : list str) :
  eval read_operations w = Ret names ->
  run_with_asciinema command None w
  = run_with_asciinema command (Some (name_for names)) w.
Proof.
  intros Hr; destruct (asciinema w) eqn:Ha.
  - pose proof (default_operation_name_run w names Hr) as Hd.
    unfold run_with_asciinema.
    do 2 (run_ret; cbv beta); rewrite Ha.
    do 2 (run_ret; cbv beta).
    rewrite (bind_ret _ _ _ _ _ Hd); run_ret; cbv beta.
    destruct w as [st t tc si so a n r md rc]; destruct st; reflexivity.
  - now rewrite !(run_with_asciinema_missing _ _ _ Ha).
Qed.

Lemma name_for_In (names : list str) : names <> [] -> In (name_for names) names.
Proof.
  intros Hne; destruct names as [|n names]; [contradiction|].
  unfold name_for; rewrite (app_removelast_last (@nil char) Hne) at 2.
  apply in_or_app; right; now left.
Qed.

(** X19: a run without a name on a registry that has entries records under
    the last of them and leaves the text of the registry file as it is,
    however the recording ends. *)
Theorem default_name_keeps_registry (command : str) (w : world) (names : list str) :
  eval read_operations w = Ret names -> names <> [] ->
  content_of (exec (run_with_asciinema command None) w) = content_of w /\
  (asciinema w = true ->
   made_dirs (exec (run_with_asciinema command None) w)
   = made_dirs w ++ [path_join base_dir (last names [])]).
Proof.
  intros Hr Hne; unfold exec.
  rewrite (run_with_asciinema_none command w names Hr).
  assert (Hl : name_for names = last names []) by (destruct names; [contradiction | reflexivity]).
  assert (Hm : mem (name_for names) names = true).
  { apply mem_In, name_for_In, Hne. }
  assert (Hx : mem (name_for names) names || encodable (name_for names) = true).
  { now rewrite Hm. }
  split.
  - destruct (asciinema w) eqn:Ha.
    + destruct (run_with_asciinema_changes command (name_for names) w names Ha Hr Hx)
        as (_ & _ & Hc).
      unfold exec in Hc; rewrite Hc.
      now rewrite Hm, app_nil_r.
    + now rewrite (run_with_asciinema_missing _ _ _ Ha).
  - intros Ha.
    destruct (run_with_asciinema_changes command (name_for names) w names Ha Hr Hx)
      as (Hd & _).
    unfold exec in Hd; now rewrite Hd, Hl.
Qed.

Lemma default_name_keeps_registry_witness :
  content_of (exec (run_with_asciinema (lit "bash") None)
                (set_store (File (registry_text [lit "alpha"; lit "beta"])) fresh_world))
  = content_of (set_store (File (registry_text [lit "alpha"; lit "beta"])) fresh_world).
Proof.
  refine (proj1 (default_name_keeps_registry (lit "bash")
            (set_store (File (registry_text [lit "alpha"; lit "beta"])) fresh_world)
            [lit "alpha"; lit "beta"] _ _)); [reflexivity | discriminate].
Defined.

Lemma name_for_snoc (names : list str) (x : str) : name_for (names ++ [x]) = x.
Proof.
  unfold name_for; destruct (names ++ [x]) eqn:E.
  - destruct names; discriminate E.
  - rewrite <- E; apply last_last.
Qed.

(** X20: which name is the default after a recording under a plain name [x]
    without a line boundary, on a registry file that is missing, empty or
    closed by LF.  If [x] was not an entry it is now the last one, and the
    default; if it was one, the default is still the last entry of before,
    which need not be [x]: the default follows the order of first use, not
    the last use. *)
Theorem default_after_named_run (command x : str) (w : world) (names : list str) :
  asciinema w = true ->
  plain_name x = true ->
  no_linebreak x = true ->
  terminated w ->
  eval read_operations w = Ret names ->
  eval default_operation_name (exec (run_with_asciinema command (Some x)) w)
  = Ret (if mem x names then name_for names else x).
Proof.
  intros Ha Hp Hx Ht Hr.
  pose proof (plain_name_encodable x Hp) as Hen.
  assert (Hst : storable x = true) by (unfold storable; now rewrite Hx, Hen).
  set (w0 := add_dir (target_dir_of x) w).
  assert (Ht0 : terminated w0) by exact Ht.
  destruct (save_operation_reads x w0 Hst Ht0) as (l & Hl & Hsr).
  rewrite (read_operations_store w0 w eq_refl), Hr in Hl; injection Hl as <-.
  assert (He : eval (save_operation x) w0 = Ret tt).
  { apply (run_with_asciinema_saves x w names Hr); rewrite Hen; apply orb_true_r. }
  rewrite (eval_seq _ _ _ _ He) in Hsr.
  assert (Hs : store (exec (run_with_asciinema command (Some x)) w)
               = store (exec (save_operation x) w0)).
  { unfold exec at 1; rewrite (run_with_asciinema_named command x w Ha He); cbv zeta.
    destruct (recorder w) as [rc|text]; [destruct (rc =? 0)|]; reflexivity. }
  rewrite <- (read_operations_store _ _ Hs) in Hsr.
  unfold eval at 1; rewrite (default_operation_name_run _ _ Hsr); simpl fst.
  destruct (mem x names); [reflexivity | now rewrite name_for_snoc].
Qed.

Lemma default_after_named_run_witness :
  eval default_operation_name
       (exec (run_with_asciinema (lit "bash") (Some (lit "alpha")))
          (set_store (File (registry_text [lit "alpha"; lit "beta"])) fresh_world))
  = Ret (if mem (lit "alpha") [lit "alpha"; lit "beta"]
         then name_for [lit "alpha"; lit "beta"] else lit "alpha").
Proof.
  apply (default_after_named_run (lit "bash") (lit "alpha")
           (set_store (File (registry_text [lit "alpha"; lit "beta"])) fresh_world)
           [lit "alpha"; lit "beta"]); try reflexivity.
  right; exists (lit "alpha" ++ [LF] ++ lit "beta"); reflexivity.
Defined.

(** After recording under [alpha], an old entry, the default is [beta]. *)
Example default_is_not_last_used :
  eval (run_with_asciinema (lit "bash") (Some (lit "alpha")) ;;
        default_operation_name)
       (set_store (File (registry_text [lit "alpha"; lit "beta"])) fresh_world)
  = Ret (lit "beta").
Proof. reflexivity. Qed.

Lemma erase_text_app (m n : nat) :
  erase_text (m + n) = erase_text m ++ erase_text n.
Proof.
  induction m as [|m IH]; [reflexivity|].
  simpl; now rewrite IH.
Qed.

(** X21: [clear_previous_lines] writes nothing for a count of zero or less
    and leaves the world as it is; two calls with counts that are not
    negative write what one call with their sum writes; and a call writes
    six characters for each line, whatever else is in the world. *)
Theorem clear_previous_lines_counts (m n : Z) (w : world) :
  (n <= 0 -> clear_previous_lines n w = (Ret tt, w)) /\
  (0 <= m -> 0 <= n ->
   (clear_previous_lines m ;; clear_previous_lines n) w
   = clear_previous_lines (m + n) w) /\
  (0 <= n ->
   length (stdout (exec (clear_previous_lines n) w))
   = (length (stdout w) + 6 * Z.to_nat n)%nat).
Proof.
  split; [|split].
  - intros Hn; rewrite clear_previous_lines_wrote.
    replace (Z.to_nat n) with 0%nat by lia; simpl; now rewrite wrote_nil.
  - intros Hm Hn.
    rewrite (bind_ret _ _ _ _ _ (clear_previous_lines_wrote m w)).
    rewrite !clear_previous_lines_wrote, wrote_wrote.
    now rewrite Z2Nat.inj_add, erase_text_app by assumption.
  - intros Hn; unfold exec; rewrite clear_previous_lines_wrote; simpl.
    rewrite length_app; f_equal.
    induction (Z.to_nat n) as [|k IH]; [reflexivity|].
    simpl; rewrite IH; lia.
Qed.

Lemma clear_previous_lines_counts_witness :
  clear_previous_lines (-2) fresh_world = (Ret tt, fresh_world).
Proof.
  refine (proj1 (clear_previous_lines_counts 0 (-2) fresh_world) _); lia.
Defined.

(** [j] presses of one arrow and Enter, for the selector as a whole. *)
Lemma select_operation_arrows (operations : list str) (k2 : char) (delta : Z)
    (j : nat) (c : char) (rest : list char) (w : world) :
  operations <> [] ->
  (k2 = 65%N /\ delta = -1) \/ (k2 = 66%N /\ delta = 1) ->
  c = LF \/ c = CR ->
  stdin w = presses [ESC; 91%N; k2] j ++ c :: rest ->
  exists v,
    nth_error operations
      (Z.to_nat ((delta * Z.of_nat j) mod Z.of_nat (length operations))) = Some v /\
    eval (select_operation operations) w = Ret v.
Proof.
  intros Hne Hk Hc Hs.
  assert (H0 : on_candidate operations 0).
  { unfold on_candidate; destruct operations; [contradiction | simpl; lia]. }
  unfold eval; rewrite select_operation_loop.
  destruct (select_loop_presses operations k2 delta c rest Hk Hc j
              (S (length (stdin w))) 0 (wrote heading w)) as (v & Hv & Hr);
    try assumption.
  - rewrite Hs, length_app, presses_length; simpl; lia.
  - exists v; split; [exact Hv | exact Hr].
Qed.

(** X22: selection and recording together.  With the recorder installed
    and [n > 0] entries in the registry, [main] asked for a selection and
    given [k] down arrows and Enter makes the directory of the entry at index
    [k mod n] and runs the recorder once, on the command and a session file
    in that directory. *)
Theorem main_select_records (script command flag : str) (more : list str)
    (names : list str) (k : nat) (c : char) (rest : list char) (w : world) :
  mem command [lit "-h"; lit "--help"] = false ->
  mem flag [lit "-s"; lit "--select"] = true ->
  asciinema w = true ->
  eval read_operations w = Ret names -> names <> [] ->
  c = LF \/ c = CR ->
  stdin w = presses key_down k ++ c :: rest ->
  let w' := exec (main (script :: command :: flag :: more)) w in
  exists v,
    nth_error names (Z.to_nat (Z.of_nat k mod Z.of_nat (length names))) = Some v /\
    made_dirs w' = made_dirs w ++ [path_join base_dir v] /\
    recordings w'
    = recordings w
        ++ [(command,
             path_join (path_join base_dir v)
                       (lit "session_" ++ now w ++ lit ".cast"))].
Proof.
  intros Hc Hf Ha Hr Hne Hk Hs w'; subst w'.
  unfold exec at 1 2; rewrite (main_select _ _ _ _ names w Hc Hf Hr Hne).
  set (w1 := exec get_operations_file w).
  destruct (get_operations_file_frame w) as (_ & _ & Hsi & _ & Hmd & Hrc).
  fold w1 in Hsi, Hmd, Hrc.
  assert (Ha1 : asciinema w1 = true /\ now w1 = now w).
  { unfold w1; destruct w as [st t tc si so a n r md rc]; destruct st; split;
      solve [exact Ha | reflexivity]. }
  destruct (select_operation_arrows names 66%N 1 k c rest w1 Hne
              (or_intror (conj eq_refl eq_refl)) Hk (eq_trans Hsi Hs))
    as (v & Hv & Hsel).
  replace (1 * Z.of_nat k) with (Z.of_nat k) in Hv by lia.
  destruct (select_operation_run names w1 Hne) as (_ & _ & _ & _ & Hsf & _).
  destruct Hsf as (Hst2 & Hmd2 & Hrc2 & Ha2 & Hn2 & _).
  revert Hsel Hst2 Hmd2 Hrc2 Ha2 Hn2; unfold eval at 1, exec, bind.
  destruct (select_operation names w1) as [r w2]; simpl fst; simpl snd.
  intros -> Hst2 Hmd2 Hrc2 Ha2 Hn2.
  assert (Ha' : asciinema w2 = true) by (rewrite Ha2; apply Ha1).
  assert (Hl : eval read_operations w2 = Ret names).
  { rewrite (read_operations_store w2 w1 Hst2).
    unfold w1; destruct (read_operations_run w) as (l' & F1 & F2).
    unfold eval in Hr |- *; rewrite F2; rewrite F1 in Hr; exact Hr. }
  assert (Hx : mem v names || encodable v = true).
  { now rewrite (proj2 (mem_In _ _) (nth_error_In _ _ Hv)). }
  destruct (run_with_asciinema_changes command v w2 names Ha' Hl Hx) as (Hd & Hrec & _).
  unfold exec in Hd, Hrec.
  exists v; split; [exact Hv|]; split.
  - now rewrite Hd, Hmd2, Hmd.
  - rewrite Hrec, Hrc2, Hrc; unfold recording_file_of, target_dir_of.
    now rewrite Hn2, (proj2 Ha1).
Qed.

Lemma main_select_records_witness :
  exists v,
    nth_error [lit "alpha"; lit "beta"]
      (Z.to_nat (Z.of_nat 3 mod Z.of_nat (length [lit "alpha"; lit "beta"]))) = Some v /\
    made_dirs
      (exec (main [lit "RedRec"; lit "bash"; lit "-s"])
         (set_stdin (presses key_down 3 ++ [CR])
            (set_store (File (registry_text [lit "alpha"; lit "beta"])) fresh_world)))
    = made_dirs
        (set_stdin (presses key_down 3 ++ [CR])
           (set_store (File (registry_text [lit "alpha"; lit "beta"])) fresh_world))
        ++ [path_join base_dir v] /\
    recordings
      (exec (main [lit "RedRec"; lit "bash"; lit "-s"])
         (set_stdin (presses key_down 3 ++ [CR])
            (set_store (File (registry_text [lit "alpha"; lit "beta"])) fresh_world)))
    = recordings
        (set_stdin (presses key_down 3 ++ [CR])
           (set_store (File (registry_text [lit "alpha"; lit "beta"])) fresh_world))
        ++ [(lit "bash",
             path_join (path_join base_dir v)
               (lit "session_"
                  ++ now (set_stdin (presses key_down 3 ++ [CR])
                            (set_store (File (registry_text [lit "alpha"; lit "beta"]))
                               fresh_world))
                  ++ lit ".cast"))].
Proof.
  apply (main_select_records (lit "RedRec") (lit "bash") (lit "-s") []
           [lit "alpha"; lit "beta"] 3 CR []
           (set_stdin (presses key_down 3 ++ [CR])
              (set_store (File (registry_text [lit "alpha"; lit "beta"])) fresh_world)));
    try reflexivity; try discriminate.
  right; reflexivity.
Defined.

(** X23: [getch] with a key to read returns that key as a string of one
    character and takes it from the input; it enters raw mode for the read
    and puts back the attributes it found, and writes nothing.  With no key
    to read it waits, in raw mode. *)
Theorem getch_reads_one_key (w : world) :
  match stdin w with
  | c :: rest =>
      eval getch w = Ret [c] /\
      stdin (exec getch w) = rest /\
      tty (exec getch w) = tty w /\
      tty_calls (exec getch w) = tty_calls w ++ [SetRaw; TcSetAttr (tty w)] /\
      stdout (exec getch w) = stdout w /\
      same_files w (exec getch w)
  | [] =>
      eval getch w = Blocked /\
      tty (exec getch w) = raw_mode /\
      tty_calls (exec getch w) = tty_calls w ++ [SetRaw]
  end.
Proof.
  destruct (stdin w) as [|c rest] eqn:H; unfold eval, exec.
  - rewrite (getch_blocked w H); repeat split.
  - rewrite (getch_key c rest w H); simpl fst; simpl snd.
    rewrite tty_calls_key_read; repeat split.
Qed.
